(** * OpenWillis: GPS trajectory statistics, diarization dispatch and
      cloud transcription, embedded from the Python sources.

    Source files:
    - [openwillis/measures/gps/util/gps_util.py]
    - [openwillis/measures/text/util/diarization_hf_utils.py]
    - [openwillis/measures/audio/speech_transcribe_cloud.py]

    Conventions of the embedding.
    - NumPy [float64] cells are exact rationals [Q]; equality of computed
      coordinates is [Qeq].  Integer stamps are [Z].  The values inf and
      nan, which NumPy gives for a division by zero, are no rationals:
      [np_divide] marks where they arise.
    - A Python exception is the [Raise] branch of [result].
    - NumPy arrays are mutable objects: they live in a [heap] and are passed
      by reference ([loc]); code that indexes or assigns cells runs in the
      monad [M].
    - Functions imported from the [forest] package, from NumPy, or from
      modules of the repository that are not part of the files above are
      [Variable]s of the enclosing [Section]. *)

From Stdlib Require Import QArith Qround Qfield Lqa.
From stdpp Require Import gmap strings list fin_maps sorting.

Local Open Scope Z_scope.

(* ===================================================================== *)
(** ** Exceptions and the two monads                                      *)
(* ===================================================================== *)

Inductive exn : Type :=
| NameError (name : string)
| IndexError
| KeyError
| ValueError
| TypeError
| AttributeError
| RetriesExhausted
| DanglingReference.

Inductive result (A : Type) : Type :=
| Ok (a : A)
| Raise (e : exn).
Arguments Ok {A} a.
Arguments Raise {A} e.

Definition is_ok {A} (r : result A) : bool :=
  match r with Ok _ => true | Raise _ => false end.

Definition rbind {A B} (r : result A) (k : A -> result B) : result B :=
  match r with
  | Ok a => k a
  | Raise e => Raise e
  end.

Definition of_option {A} (e : exn) (o : option A) : result A :=
  match o with Some a => Ok a | None => Raise e end.

Declare Scope res_scope.
Delimit Scope res_scope with res.
Notation "x <- c ;; k" := (rbind c (fun x => k))
  (at level 100, c at next level, right associativity) : res_scope.
Notation "c ;;; k" := (rbind c (fun _ => k))
  (at level 100, right associativity) : res_scope.

(** A trajectory segment: one row of the fixed-column array produced by the
    mobility library.  Column numbers as the source indexes them:
    0 flag, 1 x0, 2 y0, 3 t0, 4 x1, 5 y1, 6 t1, 7 observed indicator. *)
Record segment : Type := Seg {
  s_flag : Q; s_x0 : Q; s_y0 : Q; s_t0 : Q;
  s_x1 : Q; s_y1 : Q; s_t1 : Q; s_obs : Q
}.

Definition cell (s : segment) (j : nat) : option Q :=
  match j with
  | 0%nat => Some (s_flag s) | 1%nat => Some (s_x0 s)
  | 2%nat => Some (s_y0 s)   | 3%nat => Some (s_t0 s)
  | 4%nat => Some (s_x1 s)   | 5%nat => Some (s_y1 s)
  | 6%nat => Some (s_t1 s)   | 7%nat => Some (s_obs s)
  | _ => None
  end.

Definition set_cell (s : segment) (j : nat) (v : Q) : option segment :=
  let '(Seg c0 c1 c2 c3 c4 c5 c6 c7) := s in
  match j with
  | 0%nat => Some (Seg v c1 c2 c3 c4 c5 c6 c7)
  | 1%nat => Some (Seg c0 v c2 c3 c4 c5 c6 c7)
  | 2%nat => Some (Seg c0 c1 v c3 c4 c5 c6 c7)
  | 3%nat => Some (Seg c0 c1 c2 v c4 c5 c6 c7)
  | 4%nat => Some (Seg c0 c1 c2 c3 v c5 c6 c7)
  | 5%nat => Some (Seg c0 c1 c2 c3 c4 v c6 c7)
  | 6%nat => Some (Seg c0 c1 c2 c3 c4 c5 v c7)
  | 7%nat => Some (Seg c0 c1 c2 c3 c4 c5 c6 v)
  | _ => None
  end.

Abbreviation ndarray := (list segment).
Abbreviation loc := nat.
Abbreviation heap := (gmap nat (list segment)).

(** State-and-exception monad: an exception leaves the heap as it was when
    it was raised. *)
Definition M (A : Type) : Type := heap -> result A * heap.

Definition ret {A} (a : A) : M A := fun h => (Ok a, h).
Definition throw {A} (e : exn) : M A := fun h => (Raise e, h).
Definition bind {A B} (m : M A) (k : A -> M B) : M B :=
  fun h => match m h with
           | (Ok a, h') => k a h'
           | (Raise e, h') => (Raise e, h')
           end.
Definition lift {A} (r : result A) : M A := fun h => (r, h).

Declare Scope heap_scope.
Delimit Scope heap_scope with M.
Notation "x <- c ;; k" := (bind c (fun x => k))
  (at level 100, c at next level, right associativity) : heap_scope.
Notation "c ;;; k" := (bind c (fun _ => k))
  (at level 100, right associativity) : heap_scope.

(** Reading the array an object reference points to. *)
Definition load (l : loc) : M ndarray :=
  fun h => (of_option DanglingReference (h !! l), h).

(** A new array object at an address the heap does not use. *)
Definition alloc (a : ndarray) : M loc :=
  fun h => let l := fresh (dom h) in (Ok l, <[l := a]> h).

(** Python index resolution on a sequence of length [n]: [0 <= i < n]
    counts from the front, [-n <= i < 0] from the back. *)
Definition norm_index (n : nat) (i : Z) : option nat :=
  if (0 <=? i) then
    (if (i <? Z.of_nat n) then Some (Z.to_nat i) else None)
  else
    (if (- Z.of_nat n <=? i) then Some (Z.to_nat (Z.of_nat n + i)) else None).

(** [a[i, j]] *)
Definition getitem (l : loc) (i : Z) (j : nat) : M Q :=
  (a <- load l ;;
   lift (k <- of_option IndexError (norm_index (length a) i) ;;
         r <- of_option IndexError (a !! k) ;;
         of_option IndexError (cell r j))%res)%M.

(** [a[i, j] = v], in place. *)
Definition setitem (l : loc) (i : Z) (j : nat) (v : Q) : M unit :=
  (a <- load l ;;
   fun h =>
     match (k <- of_option IndexError (norm_index (length a) i) ;;
            r <- of_option IndexError (a !! k) ;;
            r' <- of_option IndexError (set_cell r j v) ;;
            Ok (<[k := r']> a))%res with
     | Ok a' => (Ok tt, <[l := a']> h)
     | Raise e => (Raise e, h)
     end)%M.

(** Rows selected by a boolean mask, in order. *)
Fixpoint mask_select {A} (a : list A) (mask : list bool) : list A :=
  match a, mask with
  | r :: a', b :: mask' =>
      if b then r :: mask_select a' mask' else mask_select a' mask'
  | _, _ => []
  end.

(** [a[mask, :]]: boolean-mask indexing is advanced indexing, so NumPy
    builds a new array holding copies of the selected rows.  A mask whose
    length differs from the number of rows raises IndexError. *)
Definition mask_rows (l : loc) (mask : list bool) : M loc :=
  (a <- load l ;;
   if bool_decide (length mask = length a)
   then alloc (mask_select a mask)
   else throw IndexError)%M.

(** Python [sum] over a boolean array: the number of [True] entries. *)
Definition sum_bool (mask : list bool) : Z :=
  fold_left (fun acc (b : bool) => acc + (if b then 1 else 0)) mask 0.

(* ===================================================================== *)
(** ** gps_util.traj_smooth_ends                                          *)
(* ===================================================================== *)




(** The cells are exact rationals, and [(x / y)%Q] is the quotient of the
    code wherever the divisor, the duration [t1 - t0] of a boundary row, is
    not zero.  On a boundary row with [t0 = t1] the code divides by zero
    ([np_divide] gives [None]) and stores inf or nan in the boundary
    coordinates ([boundary_coordinate] gives [None]); no rational cell
    holds these, so the coordinates written below for such a row are not
    those of the code.  Its timestamps, the other cells and the other rows
    are. *)
Definition traj_smooth_ends
    (traj : loc) (start_time end_time : Q) (index_rows : list bool) : M loc :=
  (current_traj <- mask_rows traj index_rows ;;
   if (sum_bool index_rows =? 1) then
     c03 <- getitem current_traj 0 3 ;;
     c06 <- getitem current_traj 0 6 ;;
     let p0 := ((start_time - c03) / (c06 - c03))%Q in
     let p1 := ((end_time - c03) / (c06 - c03))%Q in
     x0 <- getitem current_traj 0 1 ;;
     y0 <- getitem current_traj 0 2 ;;
     x1 <- getitem current_traj 0 4 ;;
     y1 <- getitem current_traj 0 5 ;;
     setitem current_traj 0 1 ((1 - p0) * x0 + p0 * x1)%Q ;;;
     setitem current_traj 0 2 ((1 - p0) * y0 + p0 * y1)%Q ;;;
     setitem current_traj 0 3 start_time ;;;
     setitem current_traj 0 4 ((1 - p1) * x0 + p1 * x1)%Q ;;;
     setitem current_traj 0 5 ((1 - p1) * y0 + p1 * y1)%Q ;;;
     setitem current_traj 0 6 end_time ;;;
     ret current_traj
   else
     c06 <- getitem current_traj 0 6 ;;
     c03 <- getitem current_traj 0 3 ;;
     let p0 := ((c06 - start_time) / (c06 - c03))%Q in
     l3 <- getitem current_traj (-1) 3 ;;
     l6 <- getitem current_traj (-1) 6 ;;
     let p1 := ((end_time - l3) / (l6 - l3))%Q in
     c04 <- getitem current_traj 0 4 ;;
     c01 <- getitem current_traj 0 1 ;;
     setitem current_traj 0 1 ((1 - p0) * c04 + p0 * c01)%Q ;;;
     c05 <- getitem current_traj 0 5 ;;
     c02 <- getitem current_traj 0 2 ;;
     setitem current_traj 0 2 ((1 - p0) * c05 + p0 * c02)%Q ;;;
     setitem current_traj 0 3 start_time ;;;
     l1 <- getitem current_traj (-1) 1 ;;
     l4 <- getitem current_traj (-1) 4 ;;
     setitem current_traj (-1) 4 ((1 - p1) * l1 + p1 * l4)%Q ;;;
     l2 <- getitem current_traj (-1) 2 ;;
     l5 <- getitem current_traj (-1) 5 ;;
     setitem current_traj (-1) 5 ((1 - p1) * l2 + p1 * l5)%Q ;;;
     setitem current_traj (-1) 6 end_time ;;;
     ret current_traj)%M.

(** What the assignments of [traj_smooth_ends] leave in the selected rows,
    read off the run of the code by [traj_smooth_ends_single] and
    [traj_smooth_ends_multi] below. *)
Definition smooth_single (s : segment) (start_time end_time : Q) : segment :=
  let p0 := ((start_time - s_t0 s) / (s_t1 s - s_t0 s))%Q in
  let p1 := ((end_time - s_t0 s) / (s_t1 s - s_t0 s))%Q in
  Seg (s_flag s)
      ((1 - p0) * s_x0 s + p0 * s_x1 s)%Q ((1 - p0) * s_y0 s + p0 * s_y1 s)%Q
      start_time
      ((1 - p1) * s_x0 s + p1 * s_x1 s)%Q ((1 - p1) * s_y0 s + p1 * s_y1 s)%Q
      end_time
      (s_obs s).

Definition smooth_first (s : segment) (start_time : Q) : segment :=
  let p0 := ((s_t1 s - start_time) / (s_t1 s - s_t0 s))%Q in
  Seg (s_flag s)
      ((1 - p0) * s_x1 s + p0 * s_x0 s)%Q ((1 - p0) * s_y1 s + p0 * s_y0 s)%Q
      start_time (s_x1 s) (s_y1 s) (s_t1 s) (s_obs s).

Definition smooth_last (s : segment) (end_time : Q) : segment :=
  let p1 := ((end_time - s_t0 s) / (s_t1 s - s_t0 s))%Q in
  Seg (s_flag s) (s_x0 s) (s_y0 s) (s_t0 s)
      ((1 - p1) * s_x0 s + p1 * s_x1 s)%Q ((1 - p1) * s_y0 s + p1 * s_y1 s)%Q
      end_time (s_obs s).



(** What a caller can observe of a call that returns an array reference:
    the exception, or the contents of the returned array. *)
Definition outcome (r : result loc * heap) : result (option ndarray) :=
  match r with
  | (Ok l, h') => Ok (h' !! l)
  | (Raise e, _) => Raise e
  end.

(** A run that ends in an exception. *)
Definition raises {A} (r : result A * heap) : Prop :=
  ∃ e h', r = (Raise e, h').

(** A trajectory of four segments and a heap holding it, used to run the
    array code on concrete data. *)
Definition demo_traj : ndarray :=
  [ Seg 1 0 0 3000 10 20 4000 1;
    Seg 2 10 20 4000 10 20 6000 1;
    Seg 1 10 20 6000 40 50 8000 0;
    Seg 2 40 50 8000 40 50 9000 1 ]%Q.

Definition demo_heap : heap := {[ 7%nat := demo_traj ]}.


(* ===================================================================== *)
(** ** The forest package                                                 *)
(* ===================================================================== *)

(** [forest.poplar.legacy.common_funcs] exchanges local times as lists
    [[year, month, day, hour, minute, second]]: a record of six integers. *)
Record datetime : Type := DT {
  dt_year : Z; dt_month : Z; dt_day : Z;
  dt_hour : Z; dt_minute : Z; dt_second : Z
}.

(** The three functions [gps_util.py] imports from forest. *)
Class Forest : Type := {
  stamp2datetime : Q -> string -> datetime;
  datetime2stamp : datetime -> string -> Z;
  locate_home : ndarray -> string -> result (Q * Q)
}.

(** Python's [for x in xs:] over a loop-carried state. *)
Fixpoint for_each {A S} (xs : list A) (body : A -> S -> M S) (s : S) : M S :=
  match xs with
  | [] => ret s
  | x :: xs' => (s' <- body x s ;; for_each xs' body s')%M
  end.

(* ===================================================================== *)
(** ** gps_util.day_night_split                                           *)
(* ===================================================================== *)

Section DayNight.
Context `{Forest}.

Definition day_night_split (current_traj : loc) (timezone : string)
  : M (list bool * list bool) :=
  (a <- load current_traj ;;
   hours <- for_each (seq 0 (length a))
     (fun i hours =>
        c3 <- getitem current_traj (Z.of_nat i) 3 ;;
        c6 <- getitem current_traj (Z.of_nat i) 6 ;;
        let time_list := stamp2datetime ((c3 + c6) / 2)%Q timezone in
        ret (hours ++ [dt_hour time_list])) [] ;;
   let day_index := map (fun hr => (8 <=? hr) && (hr <=? 19)) hours in
   let night_index := map negb day_index in
   ret (day_index, night_index))%M.

(** The hour of the local time at the middle of a segment. *)
Definition midpoint_hour (timezone : string) (row : segment) : Z :=
  dt_hour (stamp2datetime ((s_t0 row + s_t1 row) / 2)%Q timezone).
End DayNight.

(* ===================================================================== *)
(** ** gps_util.gps_quality                                               *)
(* ===================================================================== *)

(** Python's [int()] on a float: truncation toward zero. *)
Definition py_int (q : Q) : Z :=
  if Qle_bool 0 q then Qfloor q else Qceiling q.

Definition Qlt_bool (p q : Q) : bool :=
  match (p ?= q)%Q with Lt => true | _ => false end.

Section Quality.
(** A row of the GPS dataframe; the function reads its [timestamp]
    column only. *)
Variable obs : Type.
Variable timestamp : obs -> Q.

(** The dataframe is threaded through the call, so that what the call
    leaves of it can be stated. *)
Definition gps_quality (data : list obs) : result unit * list obs :=
  (match last data, head data with
   | Some last_row, Some first_row =>
       let end_time := timestamp last_row in
       let start_time := timestamp first_row in
       let num_hours := py_int ((end_time - start_time) / 3600)%Q + 1 in
       let quality_check :=
         fold_left
           (fun quality_check hour =>
              let hour_data :=
                List.filter
                  (fun r =>
                     Qle_bool (start_time + inject_Z hour * 3600)%Q
                              (timestamp r)
                     && Qlt_bool (timestamp r)
                                 (start_time + inject_Z (hour + 1) * 3600)%Q)
                  data in
              if (60 <? Z.of_nat (length hour_data))
              then quality_check + 1 else quality_check)
           (seqZ 0 num_hours) 0 in
       if Qlt_bool (inject_Z quality_check) (0.5 * inject_Z num_hours)%Q
       then Raise ValueError
       else Ok tt
   | _, _ => Raise IndexError
   end, data).

(** In the specification's words: hour bucket [hour] of a recording that starts at
    [start_time] is the half-open interval
    [[start_time + hour * 3600, start_time + (hour + 1) * 3600)]. *)
Definition in_hour_bucket (start_time : Q) (hour : Z) (t : Q) : Prop :=
  (start_time + inject_Z hour * 3600 <= t
   ∧ t < start_time + (inject_Z hour + 1) * 3600)%Q.

#[local] Instance in_hour_bucket_dec start_time hour t :
  Decision (in_hour_bucket start_time hour t).
Proof.
  unfold in_hour_bucket.
  destruct (Qlt_le_dec t (start_time + inject_Z hour * 3600)%Q) as [Hlo|Hlo].
  { right. intros [Hle _]. by apply (Qlt_not_le _ _ Hlo). }
  destruct (Qlt_le_dec t (start_time + (inject_Z hour + 1) * 3600)%Q)
    as [Hhi|Hhi].
  - by left.
  - right. intros [_ Hlt]. by apply (Qlt_not_le _ _ Hlt).
Defined.

(** Number of observations in a bucket, and number of buckets among the
    first [num_hours] that hold more than 60 observations. *)
Definition bucket_size (data : list obs) (start_time : Q) (hour : Z) : nat :=
  length (filter (fun r => in_hour_bucket start_time hour (timestamp r)) data).

Definition dense_hours (data : list obs) (start_time : Q) (num_hours : Z)
  : nat :=
  length (filter (fun hour => (60 < bucket_size data start_time hour)%nat)
                 (seqZ 0 num_hours)).
End Quality.

(** A stand-in for forest on UTC stamps within January 1970, precise enough
    to run the code on concrete trajectories: the home location is taken
    to be the start of the first observed segment. *)
Definition utc_january_1970 : Forest := {|
  stamp2datetime stamp _ :=
    let z := Qfloor stamp in
    DT 1970 1 (1 + z / 86400) (z mod 86400 / 3600) (z mod 3600 / 60) (z mod 60);
  datetime2stamp t _ :=
    (dt_day t - 1) * 86400 + dt_hour t * 3600 + dt_minute t * 60 + dt_second t;
  locate_home obs_traj _ :=
    match obs_traj with
    | s :: _ => Ok (s_x0 s, s_y0 s)
    | [] => Raise ValueError
    end
|}.

(* ===================================================================== *)
(** ** pandas dataframes                                                  *)
(* ===================================================================== *)

(** A dataframe cell: a number or [pd.NA]. *)
Inductive value : Type :=
| NA
| Num (q : Q).

(** Arithmetic with [pd.NA] yields [pd.NA]. *)
Definition value_add (a b : value) : value :=
  match a, b with
  | Num x, Num y => Num (x + y)
  | _, _ => NA
  end.

(** Python's [sum]: a left fold of [+] from the integer 0. *)
Definition py_sum (xs : list value) : value := fold_left value_add xs (Num 0).

Definition py_sumQ (xs : list Q) : Q := fold_left Qplus xs 0%Q.

(** A dataframe: its column names and its rows in order, each with its
    index label. *)
Record DataFrame : Type := DF {
  columns : list string;
  rows : list (Z * list value)
}.

Definition labels (df : DataFrame) : list Z := map fst (rows df).

(** [df.shape[0]] *)
Definition shape0 (df : DataFrame) : Z := Z.of_nat (length (rows df)).

Fixpoint index_of (name : string) (names : list string) : option nat :=
  match names with
  | [] => None
  | n :: names' =>
      if String.eqb name n then Some 0%nat
      else option_map S (index_of name names')
  end.

Fixpoint sequence_res {A} (xs : list (result A)) : result (list A) :=
  match xs with
  | [] => Ok []
  | x :: xs' => (a <- x ;; rest <- sequence_res xs' ;; Ok (a :: rest))%res
  end.

(** [df.<name>]: the cells of a column, top to bottom. *)
Definition column (df : DataFrame) (name : string) : result (list value) :=
  (pos <- of_option AttributeError (index_of name (columns df)) ;;
   sequence_res
     (map (fun r : Z * list value => of_option IndexError (r.2 !! pos))
          (rows df)))%res.

(** [df.loc[label]]: the first row carrying the label. *)
Definition loc_get (df : DataFrame) (label : Z) : option (list value) :=
  snd <$> List.find (fun r : Z * list value => Z.eqb r.1 label) (rows df).

(** [df.loc[label] = cells], in place ([overwrite] rewrites one row when
    it carries the label): a list whose length is not the
    number of columns raises ValueError; otherwise the cells overwrite
    every row carrying the label, or are appended as a new row under that
    label when none does. *)
Definition overwrite (label : Z) (cells : list value) (r : Z * list value)
  : Z * list value :=
  if Z.eqb r.1 label then (r.1, cells) else r.

Definition loc_set (df : DataFrame) (label : Z) (cells : list value)
  : result DataFrame :=
  if negb (Nat.eqb (length cells) (length (columns df))) then Raise ValueError
  else if existsb (Z.eqb label) (labels df) then
    Ok (DF (columns df) (map (overwrite label cells) (rows df)))
  else Ok (DF (columns df) (rows df ++ [(label, cells)])).

(** [pd.Series(data, index=index)] from a list: the lengths must agree. *)
Definition pd_Series (data : list value) (index : list string)
  : result (list (string * value)) :=
  if Nat.eqb (length data) (length index) then Ok (combine index data)
  else Raise ValueError.

(** [df.append(series, ignore_index=True)] (pandas 1.x): a NEW dataframe
    with the series as one more row, relabelled 0, 1, ...; [df] itself is
    not changed.  The series is aligned to the columns by name. *)
Definition df_append (df : DataFrame) (series : list (string * value))
  : DataFrame :=
  let cells :=
    map (fun c =>
           match List.find (fun kv : string * value => String.eqb kv.1 c) series
           with Some kv => kv.2 | None => NA end)
        (columns df) in
  let all_rows := map snd (rows df) ++ [cells] in
  DF (columns df)
     (combine (seqZ 0 (Z.of_nat (length all_rows))) all_rows).

(* ===================================================================== *)
(** ** gps_util.summary_stats                                             *)
(* ===================================================================== *)

(** [np.mean] and [np.std] over a column. *)
Class NumPy : Type := {
  np_mean : list value -> value;
  np_std : list value -> value
}.

Section Summary.
Context `{NumPy}.

Definition summary_stats (daily summary : DataFrame) : result DataFrame :=
  (let no_days := shape0 daily in
   observed_time <- column daily "observed_time" ;;
   let total_observed_time := py_sum observed_time in
   dist_travelled <- column daily "dist_travelled" ;;
   let mean_dist_travelled := np_mean dist_travelled in
   let sd_dist_travelled := np_std dist_travelled in
   home_time <- column daily "home_time" ;;
   let mean_home_time := np_mean home_time in
   let sd_home_time := np_std home_time in
   home_max_dist <- column daily "home_max_dist" ;;
   let mean_home_max_dist := np_mean home_max_dist in
   let sd_home_max_dist := np_std home_max_dist in
   loc_set summary 0
     [ Num (inject_Z no_days);
       total_observed_time;
       mean_dist_travelled;
       sd_dist_travelled;
       mean_home_time;
       sd_home_time;
       mean_home_max_dist;
       sd_home_max_dist ])%res.
End Summary.

(** A stand-in for NumPy on columns of numbers: the mean, and the
    population standard deviation where the variance is the square of a
    rational (elsewhere the deviation is irrational and has no exact cell;
    the stand-in answers [NA] there).  An empty or non-numeric column gives
    [NA]. *)
Fixpoint numbers (xs : list value) : option (list Q) :=
  match xs with
  | [] => Some []
  | Num q :: xs' => option_map (cons q) (numbers xs')
  | NA :: _ => None
  end.

Definition mean_exact (qs : list Q) : Q :=
  (py_sumQ qs / inject_Z (Z.of_nat (length qs)))%Q.

Definition sqrt_exact (q : Q) : option Q :=
  let r := Qred q in
  let n := Z.sqrt (Qnum r) in
  let d := Z.sqrt (Zpos (Qden r)) in
  if (n * n =? Qnum r) && (d * d =? Zpos (Qden r))
  then Some (n # Z.to_pos d) else None.

Definition numpy_exact : NumPy := {|
  np_mean xs :=
    match numbers xs with
    | Some (q :: qs) => Num (Qred (mean_exact (q :: qs)))
    | _ => NA
    end;
  np_std xs :=
    match numbers xs with
    | Some (q :: qs) =>
        let m := mean_exact (q :: qs) in
        match sqrt_exact (mean_exact (map (fun x => (x - m) * (x - m))%Q (q :: qs)))
        with Some s => Num s | None => NA end
    | _ => NA
    end
|}.

Definition daily_columns : list string :=
  [ "year"; "month"; "day"; "observed_time"; "observed_time_day";
    "observed_time_night"; "dist_travelled"; "home_time"; "home_max_dist" ].

Definition hourly_columns : list string :=
  [ "year"; "month"; "day"; "hour"; "observed_time"; "dist_travelled";
    "home_time"; "home_max_dist" ].

Definition summary_columns : list string :=
  [ "no_days"; "total_observed_time"; "mean_dist_travelled";
    "sd_dist_travelled"; "mean_home_time"; "sd_home_time";
    "mean_home_max_dist"; "sd_home_max_dist" ].

(** Two days of statistics, and an empty summary frame. *)
Definition demo_daily : DataFrame :=
  DF daily_columns
     [ (0, map Num [1970; 1; 1; 80000; 40000; 40000; 100; 60000; 500]%Q);
       (1, map Num [1970; 1; 2; 70000; 30000; 40000; 300; 50000; 1500]%Q) ].

Definition demo_summary : DataFrame := DF summary_columns [].

(* ===================================================================== *)
(** ** gps_util.gps_stats and trajectory_statistics                       *)
(* ===================================================================== *)

(** Names bound at module level of [gps_util.py] (its imports, its logger
    and its six functions), and the built-ins the module uses. *)
Definition gps_util_globals : list string :=
  [ "logging"; "np"; "pd"; "locate_home"; "datetime2stamp"; "stamp2datetime";
    "logger"; "gps_quality"; "trajectory_statistics"; "gps_stats";
    "traj_smooth_ends"; "day_night_split"; "summary_stats" ].

Definition builtins_used : list string :=
  [ "int"; "range"; "sum"; "max"; "ValueError" ].

(** Loading a name that no assignment of the function binds: Python looks
    it up in the module's globals, then in the built-ins, and raises
    NameError when neither has it.  [denotation] is the object the name
    stands for where it is bound. *)
Definition load_global {A} (name : string) (denotation : A) : M A :=
  if existsb (String.eqb name) (gps_util_globals ++ builtins_used)
  then ret denotation
  else throw (NameError name).

(** [time_list[4:6] = [0, 0]] and [time_list[3:6] = [0, 0, 0]]. *)
Definition truncate_to_hour (t : datetime) : datetime :=
  DT (dt_year t) (dt_month t) (dt_day t) (dt_hour t) 0 0.

Definition truncate_to_day (t : datetime) : datetime :=
  DT (dt_year t) (dt_month t) (dt_day t) 0 0 0.

(** [np.round(x, 0)]: to the nearest integer, ties to the even one. *)
Definition np_round0 (x : Q) : Q :=
  let f := Qfloor (x + (1 # 2)) in
  if Qeq_bool (x + (1 # 2)) (inject_Z f) && Z.odd f
  then inject_Z (f - 1) else inject_Z f.

(** Python's [max] of a sequence: ValueError when it is empty. *)
Definition py_max (xs : list Q) : result Q :=
  match xs with
  | [] => Raise ValueError
  | x :: xs' => Ok (fold_left (fun m y => if Qlt_bool m y then y else m) xs' x)
  end.

(** [values[mask]] on a one-dimensional array. *)
Definition mask_values {A} (values : list A) (mask : list bool)
  : result (list A) :=
  if Nat.eqb (length mask) (length values) then Ok (mask_select values mask)
  else Raise IndexError.

Definition duration (r : segment) : Q := (s_t1 r - s_t0 r)%Q.

Definition observed (r : segment) : bool := Qeq_bool (s_obs r) 1.

Section GpsStats.
Context `{Forest}.

(** [great_circle_dist] and [temp] are names the function loads; the
    objects below are what they would stand for were they bound. *)
Variable great_circle_dist : Q -> Q -> Q -> Q -> Q.
Variable temp : loc.

(** One iteration of the window loop.  [continue] is the [ret tt] of the
    first branch. *)
Definition window_stats
    (traj : loc) (df : DataFrame) (frequency timezone : string)
    (home_coords : Q * Q) (start_stamp window : Z) (i : Z) : M unit :=
  (let start_time := start_stamp + i * window in
   let end_time := start_stamp + (i + 1) * window in
   let current_time_list := stamp2datetime (inject_Z start_time) timezone in
   let year := dt_year current_time_list in
   let month := dt_month current_time_list in
   let day := dt_day current_time_list in
   let hour := dt_hour current_time_list in
   a <- load traj ;;
   let index_rows :=
     map (fun r => Qlt_bool (s_t0 r) (inject_Z end_time)
                   && Qlt_bool (inject_Z start_time) (s_t1 r)) a in
   if (sum_bool index_rows =? 0) then
     let res := map (fun _ => NA) (drop 4 (columns df)) in
     let res := map (fun z => Num (inject_Z z)) [year; month; day; hour]
                ++ res in
     series <- lift (pd_Series res (columns df)) ;;
     (* the frame [df.append] returns is dropped *)
     let _unused := df_append df series in
     ret tt
   else
     current_traj <- traj_smooth_ends traj (inject_Z start_time)
                       (inject_Z end_time) index_rows ;;
     cur <- load current_traj ;;
     let obs_dur := py_sumQ (map duration (List.filter observed cur)) in
     day_night <-
       (if String.eqb frequency "daily" then
          split <- day_night_split current_traj timezone ;;
          let '(day_index, night_index) := split in
          day_rows <- lift (mask_values cur day_index) ;;
          let obs_dur_day :=
            py_sumQ (map duration (List.filter observed day_rows)) in
          night_rows <- lift (mask_values cur night_index) ;;
          let obs_dur_night :=
            py_sumQ (map duration (List.filter observed night_rows)) in
          ret (Some (obs_dur_day, obs_dur_night))
        else ret None) ;;
     gcd <- load_global "great_circle_dist" great_circle_dist ;;
     let mov_vec :=
       map (fun r => np_round0 (gcd (s_x1 r) (s_y1 r) (s_x0 r) (s_y0 r)))
           cur in
     let dist_traveled := py_sumQ mov_vec in
     temp_ref <- load_global "temp" temp ;;
     t <- load temp_ref ;;
     let d_home_1 :=
       map (fun r => gcd home_coords.1 home_coords.2 (s_x0 r) (s_y0 r)) t in
     let d_home_2 :=
       map (fun r => gcd home_coords.1 home_coords.2 (s_x1 r) (s_y1 r)) t in
     let d_home := zip_with (fun d1 d2 => ((d1 + d2) / 2)%Q) d_home_1 d_home_2 in
     at_home <- lift (mask_values (map duration cur)
                        (map (fun d => Qle_bool d 50) d_home)) ;;
     let time_at_home := py_sumQ at_home in
     max_dist_home <- lift (py_max (d_home_1 ++ d_home_2)) ;;
     if String.eqb frequency "hourly" then
       let res :=
         map (fun z => Num (inject_Z z)) [year; month; day; hour]
         ++ map Num [obs_dur; dist_traveled; time_at_home; max_dist_home] in
       series <- lift (pd_Series res (columns df)) ;;
       let _unused := df_append df series in
       ret tt
     else
       durs <- lift (of_option (NameError "obs_dur_day") day_night) ;;
       let '(obs_dur_day, obs_dur_night) := durs in
       let res :=
         map (fun z => Num (inject_Z z)) [year; month; day]
         ++ map Num [obs_dur; obs_dur_day; obs_dur_night;
                     dist_traveled; time_at_home; max_dist_home] in
       series <- lift (pd_Series res (columns df)) ;;
       let _unused := df_append df series in
       ret tt)%M.

(** The window layout: the two stamps the trajectory is cut between, and
    the window length. *)
Definition window_length (frequency : string) : Z :=
  if String.eqb frequency "daily" then 3600 * 24 else 3600.

Definition truncate (frequency : string) (t : datetime) : datetime :=
  if String.eqb frequency "hourly" then truncate_to_hour t
  else truncate_to_day t.

Definition gps_stats
    (traj : loc) (df : DataFrame) (frequency timezone : string)
  : M DataFrame :=
  (a <- load traj ;;
   obs_traj <- mask_rows traj (map observed a) ;;
   obs_rows <- load obs_traj ;;
   home_coords <- lift (locate_home obs_rows timezone) ;;
   first_t0 <- getitem traj 0 3 ;;
   let start_time_list := stamp2datetime first_t0 timezone in
   last_t1 <- getitem traj (-1) 6 ;;
   let end_time_list := stamp2datetime last_t1 timezone in
   let start_time_list := truncate frequency start_time_list in
   let end_time_list := truncate frequency end_time_list in
   let start_stamp := datetime2stamp start_time_list timezone in
   let end_stamp := datetime2stamp end_time_list timezone in
   let window := window_length frequency in
   let no_windows := (end_stamp - start_stamp) `div` window in
   for_each (seqZ 0 no_windows)
     (fun i (_ : unit) =>
        window_stats traj df frequency timezone home_coords
                     start_stamp window i) tt ;;;
   ret df)%M.

(** [trajectory_statistics], with [summary_stats]. *)
Definition trajectory_statistics `{NumPy}
    (traj : loc) (df_list : DataFrame * DataFrame * DataFrame)
    (timezone : string) : M (DataFrame * DataFrame * DataFrame) :=
  (let '(hourly, daily, summary) := df_list in
   hourly <- gps_stats traj hourly "hourly" timezone ;;
   daily <- gps_stats traj daily "daily" timezone ;;
   summary <- lift (summary_stats daily summary) ;;
   ret (hourly, daily, summary))%M.
End GpsStats.

(** Two trajectories to run [gps_stats] on: one of two long segments over
    two days and a bit, and one of two instantaneous fixes two hours apart
    (no window overlaps either of them). *)
Definition two_day_traj : ndarray :=
  [ Seg 1 0 0 0 10 10 100000 1;
    Seg 2 10 10 100000 10 10 200000 1 ]%Q.

Definition gap_traj : ndarray :=
  [ Seg 2 0 0 0 0 0 0 1;
    Seg 2 5 5 7200 5 5 7200 1 ]%Q.

Definition hourly_frame : DataFrame := DF hourly_columns [].
Definition daily_frame : DataFrame := DF daily_columns [].

(* ===================================================================== *)
(** ** Python values of the text and audio modules                        *)
(* ===================================================================== *)

Inductive pyval : Type :=
| VNone
| VBool (b : bool)
| VInt (z : Z)
| VStr (s : string).

(** [==] between two values: [True] and [False] are the integers 1 and 0. *)
Definition as_int (v : pyval) : option Z :=
  match v with
  | VBool b => Some (if b then 1 else 0)
  | VInt z => Some z
  | _ => None
  end.

Definition py_eq (a b : pyval) : bool :=
  match as_int a, as_int b with
  | Some x, Some y => Z.eqb x y
  | _, _ =>
      match a, b with
      | VNone, VNone => true
      | VStr s, VStr s' => String.eqb s s'
      | _, _ => false
      end
  end.

(** Truth value of an object in a condition. *)
Definition truthy (v : pyval) : bool :=
  match v with
  | VNone => false
  | VBool b => b
  | VInt z => negb (Z.eqb z 0)
  | VStr s => negb (String.eqb s "")
  end.

Abbreviation pydict := (gmap string pyval).

(** [d[key]] *)
Definition subscript (d : pydict) (key : string) : result pyval :=
  of_option KeyError (d !! key).

(** [d.get(key, default)] *)
Definition dict_get (d : pydict) (key : string) (default : pyval) : pyval :=
  match d !! key with Some v => v | None => default end.

(* ===================================================================== *)
(** ** diarization_hf_utils                                               *)
(* ===================================================================== *)

(** An element of an argument tuple: a plain value or a dictionary. *)
Inductive arg : Type :=
| AVal (v : pyval)
| ADict (d : pydict).

(** Modelled from the spec: [exponential_backoff_decorator] of
    [diarization_utils], which is not among the source files; the spec calls
    it "a generic exponential-backoff retry decorator" and the call it wraps
    "retry-wrapped".  The wrapped function is called again after it raised,
    [max_retries] more times at most; the delays are time and are not
    modelled; when every attempt raised, the wrapper raises. *)
Fixpoint retry {A B} (attempts : nat) (f : A -> result B) (x : A) : result B :=
  match attempts with
  | O => Raise RetriesExhausted
  | S n => match f x with
           | Ok b => Ok b
           | Raise _ => retry n f x
           end
  end.

Definition exponential_backoff_decorator {A B}
    (max_retries base_delay : nat) (f : A -> result B) : A -> result B :=
  retry (S max_retries) f.

(** The HuggingFace model and the two text helpers of [diarization_utils]
    that [process_chunk_hf] calls: [generate quantized input] stands for
    loading the (quantized) tokenizer and model, tokenizing, generating and
    decoding. *)
Class Diarizer : Type := {
  preprocess_str : string -> string;
  apply_formatting : string -> string;
  generate : bool -> string -> result string
}.

Section Diarization.
Context `{Diarizer}.

(** [idx, prompt, input_param = args]: the tuple must have exactly three
    elements, or the unpacking raises ValueError. *)
Definition unpack3 (args : list arg) : result (arg * arg * arg) :=
  match args with
  | [a; b; c] => Ok (a, b, c)
  | _ => Raise ValueError
  end.

(** The body of [process_chunk_hf], before decoration. *)
Definition process_chunk_hf_body (args : list arg) : result (arg * string) :=
  (unpacked <- unpack3 args ;;
   let '(idx, prompt, input_param) := unpacked in
   input_param <- match input_param with
                  | ADict d => Ok d
                  | AVal _ => Raise TypeError
                  end ;;
   quantized <- subscript input_param "quantized" ;;
   prompt <- match prompt with
             | AVal (VStr s) => Ok s
             | _ => Raise AttributeError
             end ;;
   let input_data := apply_formatting (preprocess_str prompt) in
   result <- generate (truthy quantized) input_data ;;
   Ok (idx, result))%res.

(** [@exponential_backoff_decorator(max_retries=3, base_delay=90)] *)
Definition process_chunk_hf : list arg -> result (arg * string) :=
  exponential_backoff_decorator 3 90 process_chunk_hf_body.

(** [sorted(prompts.keys())] *)
Definition sorted_keys (prompts : gmap Z string) : list Z :=
  merge_sort Z.le (map fst (map_to_list prompts)).

(** [(idx, prompts[idx], input_param, endpoint_name)] *)
Definition chunk_tuple (prompts : gmap Z string) (endpoint_name : string)
    (input_param : pydict) (idx : Z) : result (list arg) :=
  (prompt <- of_option KeyError (prompts !! idx) ;;
   Ok [AVal (VInt idx); AVal (VStr prompt); ADict input_param;
       AVal (VStr endpoint_name)])%res.

Fixpoint map_res {A B} (f : A -> result B) (xs : list A) : result (list B) :=
  match xs with
  | [] => Ok []
  | x :: xs' => (b <- f x ;; bs <- map_res f xs' ;; Ok (b :: bs))%res
  end.

(** [Pool(processes=n)] refuses [n < 1] with ValueError. *)
Definition Pool (processes : nat) : result unit :=
  if Nat.ltb processes 1 then Raise ValueError else Ok tt.

(** [dict(pairs)] for pairs whose first component is a chunk index. *)
Fixpoint dict_of_pairs (pairs : list (arg * string))
  : result (gmap Z string) :=
  match pairs with
  | [] => Ok ∅
  | (AVal (VInt idx), out) :: rest =>
      (* later pairs win: insert the earlier one underneath *)
      (d <- dict_of_pairs rest ;;
       Ok (match d !! idx with Some _ => d | None => <[idx := out]> d end))%res
  | _ :: _ => Raise TypeError
  end.

(** Both branches of [call_diarization_hf].  [pool.map] returns the
    results in the order of its arguments and re-raises a worker's
    exception; with workers that share nothing it is a map. *)
Definition call_diarization_hf
    (prompts : gmap Z string) (endpoint_name : string) (input_param : pydict)
  : result (gmap Z string) :=
  (parallel <- subscript input_param "parallel_processing" ;;
   if py_eq parallel (VInt 1) then
     Pool (size prompts) ;;;
     args <- map_res (chunk_tuple prompts endpoint_name input_param)
                     (sorted_keys prompts) ;;
     results <- map_res process_chunk_hf args ;;
     dict_of_pairs results
   else
     fold_left
       (fun acc idx =>
          results <- acc ;;
          args <- chunk_tuple prompts endpoint_name input_param idx ;;
          out <- process_chunk_hf args ;;
          Ok (<[idx := out.2]> results))
       (sorted_keys prompts) (Ok ∅))%res.
End Diarization.

(** A stand-in model that echoes its formatted input. *)
Definition echo_diarizer : Diarizer := {|
  preprocess_str s := s;
  apply_formatting s := s;
  generate _ s := Ok s
|}.

(* ===================================================================== *)
(** ** speech_transcribe_cloud                                            *)
(* ===================================================================== *)

(** [transcribe_util] (imported as [tutil]) and the configuration file are
    not among the source files: the response object, the configuration and
    the extracted content are abstract, and the calls may raise. *)
Class TranscribeUtil : Type := {
  json : Type;
  measures : Type;
  content : Type;
  get_config : result measures;
  transcribe_audio : string -> pydict -> result (json * string);
  extract_content : json -> result content;
  get_clinical_labels : pyval -> measures -> content -> json -> result json
}.

Definition read_kwargs (kwargs : pydict) : pydict :=
  let input_param : pydict := ∅ in
  let input_param :=
    <["model" := dict_get kwargs "model" (VStr "pyannote")]> input_param in
  let input_param :=
    <["language" := dict_get kwargs "language" (VStr "en-US")]> input_param in
  let input_param :=
    <["region" := dict_get kwargs "region" (VStr "us-east-1")]> input_param in
  let input_param :=
    <["job_name" := dict_get kwargs "job_name" (VStr "transcribe_job_01")]>
      input_param in
  let input_param :=
    <["ShowSpeakerLabels" := dict_get kwargs "ShowSpeakerLabels" (VBool true)]>
      input_param in
  let input_param :=
    <["MaxSpeakerLabels" := dict_get kwargs "MaxSpeakerLabels" (VInt 2)]>
      input_param in
  let input_param :=
    <["c_scale" := dict_get kwargs "c_scale" (VStr "")]> input_param in
  let input_param :=
    <["access_key" := dict_get kwargs "access_key" (VStr "")]> input_param in
  let input_param :=
    <["secret_key" := dict_get kwargs "secret_key" (VStr "")]> input_param in
  input_param.

Section Transcription.
Context `{TranscribeUtil}.

Definition speech_transcription_cloud (filepath : string) (kwargs : pydict)
  : result (json * string) :=
  (let input_param := read_kwargs kwargs in
   measures <- get_config ;;
   response <- transcribe_audio filepath input_param ;;
   let '(json_response, transcript) := response in
   show_labels <- subscript input_param "ShowSpeakerLabels" ;;
   reshape <-
     (if py_eq show_labels (VBool true) then
        c_scale <- subscript input_param "c_scale" ;; Ok (truthy c_scale)
      else Ok false) ;;
   if (reshape : bool) then
     content_dict <- extract_content json_response ;;
     c_scale <- subscript input_param "c_scale" ;;
     json_response <-
       get_clinical_labels c_scale measures content_dict json_response ;;
     Ok (json_response, transcript)
   else Ok (json_response, transcript))%res.

End Transcription.

(** A stand-in transcription service over strings: the response is the
    file path, the transcript a fixed text, and the clinical labelling
    prefixes the response with the scale. *)
Definition echo_transcriber : TranscribeUtil := {|
  json := string;
  measures := unit;
  content := string;
  get_config := Ok tt;
  transcribe_audio filepath _ := Ok (filepath, "hello"%string);
  extract_content j := Ok j;
  get_clinical_labels c_scale _ _ j :=
    match c_scale with
    | VStr s => Ok (s ++ ":" ++ j)%string
    | _ => Raise TypeError
    end
|}.

(* ===================================================================== *)
(** ** Further definitions used by the properties beyond the claims       *)
(* ===================================================================== *)

(** The keyword arguments [read_kwargs] reads, each with its default. *)
Definition kwarg_default (key : string) : option pyval :=
  if String.eqb key "model" then Some (VStr "pyannote")
  else if String.eqb key "language" then Some (VStr "en-US")
  else if String.eqb key "region" then Some (VStr "us-east-1")
  else if String.eqb key "job_name" then Some (VStr "transcribe_job_01")
  else if String.eqb key "ShowSpeakerLabels" then Some (VBool true)
  else if String.eqb key "MaxSpeakerLabels" then Some (VInt 2)
  else if String.eqb key "c_scale" then Some (VStr "")
  else if String.eqb key "access_key" then Some (VStr "")
  else if String.eqb key "secret_key" then Some (VStr "")
  else None.


(** Rows that follow one another without a gap: each ends when the next
    starts. *)
Definition contiguous (rows : list segment) : Prop :=
  ∀ (i : nat) (r r' : segment),
    rows !! i = Some r → rows !! S i = Some r' → (s_t1 r == s_t0 r')%Q.

(** A segment overlaps the window from [start_time] to [end_time]: it
    starts before the window ends and ends after the window starts. *)
Definition overlaps (r : segment) (start_time end_time : Z) : Prop :=
  (s_t0 r < inject_Z end_time)%Q ∧ (inject_Z start_time < s_t1 r)%Q.

(** The stamp [gps_stats] cuts at: the local time of [stamp], truncated to
    the hour or to midnight, as a stamp again. *)
Definition truncated_stamp `{Forest} (frequency timezone : string) (stamp : Q)
  : Z :=
  datetime2stamp (truncate frequency (stamp2datetime stamp timezone)) timezone.

(** A computation that leaves every array that exists when it starts as it
    was, whether it returns or raises. *)
Definition preserves {A} (m : M A) : Prop :=
  ∀ (h : heap) (l : loc), is_Some (h !! l) → (m h).2 !! l = h !! l.
(* ===================================================================== *)
(** ** Running array code                                                 *)
(* ===================================================================== *)

Section HeapSteps.
Implicit Types (h : heap) (a : ndarray) (l : loc).

Lemma norm_index_front n : n ≠ 0%nat → norm_index n 0 = Some 0%nat.
Proof.
  intros Hn. unfold norm_index. simpl.
  destruct (0 <? Z.of_nat n) eqn:E; [done | apply Z.ltb_ge in E; lia].
Qed.

Lemma norm_index_back n : n ≠ 0%nat → norm_index n (-1) = Some (n - 1)%nat.
Proof.
  intros Hn. unfold norm_index. simpl.
  destruct (- Z.of_nat n <=? -1) eqn:E; [| apply Z.leb_gt in E; lia].
  f_equal. lia.
Qed.

Lemma getitem_run h l a i j k r v :
  norm_index (length a) i = Some k → a !! k = Some r → cell r j = Some v →
  getitem l i j (<[l := a]> h) = (Ok v, <[l := a]> h).
Proof.
  intros Hk Hr Hv. unfold getitem, bind, load, lift.
  rewrite lookup_insert_eq. simpl.
  by rewrite Hk; simpl; rewrite Hr; simpl; rewrite Hv.
Qed.

Lemma setitem_run h l a i j v k r r' :
  norm_index (length a) i = Some k → a !! k = Some r →
  set_cell r j v = Some r' →
  setitem l i j v (<[l := a]> h) = (Ok tt, <[l := <[k := r']> a]> h).
Proof.
  intros Hk Hr Hv. unfold setitem, bind, load.
  rewrite lookup_insert_eq. simpl.
  rewrite Hk; simpl; rewrite Hr; simpl; rewrite Hv; simpl.
  by rewrite insert_insert_eq.
Qed.

Lemma sum_bool_shift mask acc z :
  fold_left (fun acc (b : bool) => acc + (if b then 1 else 0)) mask (acc + z)
  = acc + fold_left (fun acc (b : bool) => acc + (if b then 1 else 0)) mask z.
Proof.
  revert z. induction mask as [|b mask IH]; intros z; simpl; [done|].
  by rewrite <- Z.add_assoc, IH.
Qed.

Lemma sum_bool_cons b mask :
  sum_bool (b :: mask) = (if b then 1 else 0) + sum_bool mask.
Proof.
  unfold sum_bool. simpl.
  rewrite <- (sum_bool_shift mask (if b then 1 else 0) 0).
  by rewrite Z.add_0_r.
Qed.

(** The mask's sum is the number of rows it selects. *)
Lemma sum_bool_select {A} (a : list A) mask :
  length mask = length a →
  sum_bool mask = Z.of_nat (length (mask_select a mask)).
Proof.
  revert mask. induction a as [|r a IH]; intros [|b mask] Hlen; simpl in *;
    try done.
  rewrite sum_bool_cons, (IH mask) by lia. destruct b; simpl; lia.
Qed.

Lemma mask_rows_run h l a mask :
  h !! l = Some a → length mask = length a →
  mask_rows l mask h
  = (Ok (fresh (dom h)), <[fresh (dom h) := mask_select a mask]> h).
Proof.
  intros Hl Hlen. unfold mask_rows, bind, load. rewrite Hl. simpl.
  by rewrite bool_decide_true.
Qed.

Lemma fresh_loc_unused h : h !! fresh (dom h) = None.
Proof. apply not_elem_of_dom, is_fresh. Qed.

Lemma lookup_back {A} (f : A) mid z :
  (f :: mid ++ [z]) !! (length (f :: mid ++ [z]) - 1)%nat = Some z.
Proof.
  simpl. rewrite Nat.sub_0_r, length_app. simpl.
  replace (length mid + 1)%nat with (S (length mid)) by lia. simpl.
  rewrite lookup_app_r by lia. by rewrite Nat.sub_diag.
Qed.

Lemma insert_back {A} (f : A) mid z z' :
  <[(length (f :: mid ++ [z]) - 1)%nat := z']> (f :: mid ++ [z])
  = f :: mid ++ [z'].
Proof.
  simpl. rewrite Nat.sub_0_r, length_app. simpl.
  replace (length mid + 1)%nat with (S (length mid)) by lia. simpl.
  f_equal. rewrite insert_app_r_alt by lia. by rewrite Nat.sub_diag.
Qed.

End HeapSteps.

(* ===================================================================== *)
(** ** traj_smooth_ends: the run of the code                              *)
(* ===================================================================== *)

Section SmoothEndsRun.
Implicit Types (h : heap) (a : ndarray) (mask : list bool).

Local Ltac get_step :=
  unfold bind at 1; cbv beta;
  erewrite getitem_run;
  [ | first [ apply norm_index_front; simpl; lia
            | apply norm_index_back; simpl; lia ]
    | first [ reflexivity | apply lookup_back ]
    | reflexivity ].

Local Ltac set_step :=
  unfold bind at 1; cbv beta;
  erewrite setitem_run;
  [ | first [ apply norm_index_front; simpl; lia
            | apply norm_index_back; simpl; lia ]
    | first [ reflexivity | apply lookup_back ]
    | reflexivity ].

(** One selected row: all six boundary cells are rewritten. *)
Lemma traj_smooth_ends_single h traj a mask s start_time end_time :
  h !! traj = Some a → length mask = length a →
  mask_select a mask = [s] →
  traj_smooth_ends traj start_time end_time mask h
  = (Ok (fresh (dom h)),
     <[fresh (dom h) := [smooth_single s start_time end_time]]> h).
Proof.
  intros Hl Hlen Hsel. unfold traj_smooth_ends.
  unfold bind at 1. rewrite (mask_rows_run _ _ _ _ Hl Hlen), Hsel.
  rewrite (sum_bool_select a mask Hlen), Hsel.
  simpl (Z.of_nat _ =? _). cbv iota.
  destruct s as [c0 c1 c2 c3 c4 c5 c6 c7].
  do 6 get_step.
  do 6 (set_step; simpl (<[_ := _]> [_])).
  reflexivity.
Qed.

(** Two or more selected rows: the start of the first row and the end of
    the last row are rewritten, the rows between are copied as they are. *)
Lemma traj_smooth_ends_multi h traj a mask f mid z start_time end_time :
  h !! traj = Some a → length mask = length a →
  mask_select a mask = f :: mid ++ [z] →
  traj_smooth_ends traj start_time end_time mask h
  = (Ok (fresh (dom h)),
     <[fresh (dom h) :=
         smooth_first f start_time :: mid ++ [smooth_last z end_time]]> h).
Proof.
  intros Hl Hlen Hsel. unfold traj_smooth_ends.
  unfold bind at 1. rewrite (mask_rows_run _ _ _ _ Hl Hlen), Hsel.
  rewrite (sum_bool_select a mask Hlen), Hsel.
  replace (Z.of_nat (length (f :: mid ++ [z])) =? 1) with false
    by (symmetry; apply Z.eqb_neq; simpl; rewrite length_app; simpl; lia).
  destruct f as [c0 c1 c2 c3 c4 c5 c6 c7].
  destruct z as [d0 d1 d2 d3 d4 d5 d6 d7].
  do 6 get_step.
  set_step; simpl (<[0%nat := _]> (_ :: _)).
  do 2 get_step.
  set_step; simpl (<[0%nat := _]> (_ :: _)).
  set_step; simpl (<[0%nat := _]> (_ :: _)).
  do 2 get_step.
  set_step; rewrite insert_back.
  do 2 get_step.
  set_step; rewrite insert_back.
  set_step; rewrite insert_back.
  reflexivity.
Qed.

Lemma traj_smooth_ends_dangling h traj mask start_time end_time :
  h !! traj = None →
  traj_smooth_ends traj start_time end_time mask h
  = (Raise DanglingReference, h).
Proof.
  intros Hl. unfold traj_smooth_ends, mask_rows, bind, load. by rewrite Hl.
Qed.

Lemma traj_smooth_ends_bad_mask h traj a mask start_time end_time :
  h !! traj = Some a → length mask ≠ length a →
  traj_smooth_ends traj start_time end_time mask h = (Raise IndexError, h).
Proof.
  intros Hl Hlen. unfold traj_smooth_ends, mask_rows, bind, load.
  rewrite Hl. simpl. by rewrite bool_decide_false.
Qed.

(** No selected row: the first cell read is out of range. *)
Lemma traj_smooth_ends_empty h traj a mask start_time end_time :
  h !! traj = Some a → length mask = length a →
  mask_select a mask = [] →
  traj_smooth_ends traj start_time end_time mask h
  = (Raise IndexError, <[fresh (dom h) := []]> h).
Proof.
  intros Hl Hlen Hsel. unfold traj_smooth_ends.
  unfold bind at 1. rewrite (mask_rows_run _ _ _ _ Hl Hlen), Hsel.
  rewrite (sum_bool_select a mask Hlen), Hsel. simpl (Z.of_nat _ =? _).
  cbv iota. unfold bind at 1, getitem, bind, load, lift.
  by rewrite lookup_insert_eq.
Qed.

Lemma rows_shape (sel : ndarray) :
  sel = [] ∨ (∃ s, sel = [s]) ∨ (∃ f mid z, sel = f :: mid ++ [z]).
Proof.
  destruct sel as [|f rest]; [by left | right].
  destruct rest as [|r rest] using rev_ind; [left; by exists f |].
  right. by exists f, rest, r.
Qed.
End SmoothEndsRun.

(* ===================================================================== *)
(** ** traj_smooth_ends: window alignment and frame                       *)
(* ===================================================================== *)

Section SmoothEndsSpec.
Implicit Types (h : heap) (a : ndarray) (mask : list bool).



End SmoothEndsSpec.



Section SmoothEndsFrame.
Implicit Types (h : heap) (a : ndarray) (mask : list bool).

(** Every run ends in the initial heap, or in the initial heap extended
    with one new array at an unused address. *)
Lemma traj_smooth_ends_heap h traj start_time end_time mask :
  let h' := (traj_smooth_ends traj start_time end_time mask h).2 in
  h' = h ∨ ∃ out, h' = <[fresh (dom h) := out]> h.
Proof.
  simpl. destruct (h !! traj) as [a|] eqn:Hl.
  2:{ left. by rewrite traj_smooth_ends_dangling. }
  destruct (decide (length mask = length a)) as [Hlen|Hlen].
  2:{ left. by rewrite (traj_smooth_ends_bad_mask _ _ a). }
  right.
  destruct (rows_shape (mask_select a mask))
    as [Hsel | [[s Hsel] | (f & mid & z & Hsel)]].
  - rewrite (traj_smooth_ends_empty _ _ a) by done. by eexists.
  - rewrite (traj_smooth_ends_single _ _ a _ s) by done. by eexists.
  - rewrite (traj_smooth_ends_multi _ _ a _ f mid z) by done. by eexists.
Qed.

Lemma traj_smooth_ends_frame h traj start_time end_time mask l :
  is_Some (h !! l) →
  (traj_smooth_ends traj start_time end_time mask h).2 !! l = h !! l.
Proof.
  intros Hsome.
  destruct (traj_smooth_ends_heap h traj start_time end_time mask)
    as [-> | [out ->]]; [done|].
  apply lookup_insert_ne. intros <-.
  rewrite fresh_loc_unused in Hsome. by destruct Hsome.
Qed.

(** The observable result depends on the heap only through the array the
    argument points to. *)
Lemma traj_smooth_ends_outcome h1 h2 traj start_time end_time mask :
  h1 !! traj = h2 !! traj →
  outcome (traj_smooth_ends traj start_time end_time mask h1)
  = outcome (traj_smooth_ends traj start_time end_time mask h2).
Proof.
  intros Heq. destruct (h2 !! traj) as [a|] eqn:Hl.
  2:{ by rewrite !traj_smooth_ends_dangling. }
  destruct (decide (length mask = length a)) as [Hlen|Hlen].
  2:{ by rewrite !(traj_smooth_ends_bad_mask _ _ a). }
  destruct (rows_shape (mask_select a mask))
    as [Hsel | [[s Hsel] | (f & mid & z & Hsel)]].
  - by rewrite !(traj_smooth_ends_empty _ _ a).
  - rewrite !(traj_smooth_ends_single _ _ a _ s) by done. simpl.
    by rewrite !lookup_insert_eq.
  - rewrite !(traj_smooth_ends_multi _ _ a _ f mid z) by done. simpl.
    by rewrite !lookup_insert_eq.
Qed.
End SmoothEndsFrame.

(** C9.  [traj_smooth_ends] never modifies its input: after any call, whether
    it returns or raises, the array [traj] points to (and every other array
    that existed before the call) is what it was before, because the
    boolean-mask selection copies the rows it then assigns to.  Hence
    smoothing one window leaves what a later call, for any other window of
    the same trajectory, returns exactly as it would have been without the
    first call. *)
Theorem traj_smooth_ends_preserves_input
    (h : heap) (traj : loc) (start_time end_time : Q) (mask : list bool) :
  let h' := (traj_smooth_ends traj start_time end_time mask h).2 in
  h' !! traj = h !! traj
  ∧ (∀ l : loc, is_Some (h !! l) → h' !! l = h !! l)
  ∧ (∀ (start_time2 end_time2 : Q) (mask2 : list bool),
       outcome (traj_smooth_ends traj start_time2 end_time2 mask2 h')
       = outcome (traj_smooth_ends traj start_time2 end_time2 mask2 h)).
Proof.
  intros h'.
  assert (Htraj : h' !! traj = h !! traj).
  { destruct (h !! traj) as [a|] eqn:Hl.
    - subst h'. rewrite <- Hl. apply traj_smooth_ends_frame. by rewrite Hl.
    - subst h'. by rewrite traj_smooth_ends_dangling. }
  split; [done|]. split.
  - intros l Hsome. by apply traj_smooth_ends_frame.
  - intros. by apply traj_smooth_ends_outcome.
Qed.

(* ===================================================================== *)
(** ** day_night_split                                                    *)
(* ===================================================================== *)

Section DayNightSpec.
Context `{Forest}.
Implicit Types (h : heap) (a : ndarray).

Lemma norm_index_nat n k :
  (k < n)%nat → norm_index n (Z.of_nat k) = Some k.
Proof.
  intros Hk. unfold norm_index.
  destruct (0 <=? Z.of_nat k) eqn:E1; [| apply Z.leb_gt in E1; lia].
  destruct (Z.of_nat k <? Z.of_nat n) eqn:E2; [| apply Z.ltb_ge in E2; lia].
  by rewrite Nat2Z.id.
Qed.

Lemma getitem_read h l a i j k r v :
  h !! l = Some a →
  norm_index (length a) i = Some k → a !! k = Some r → cell r j = Some v →
  getitem l i j h = (Ok v, h).
Proof.
  intros Hl Hk Hr Hv. unfold getitem, bind, load, lift. rewrite Hl. simpl.
  by rewrite Hk; simpl; rewrite Hr; simpl; rewrite Hv.
Qed.

Lemma hours_loop h current_traj a timezone :
  h !! current_traj = Some a →
  ∀ (m k : nat) (hours : list Z),
    (k + m ≤ length a)%nat →
    for_each (seq k m)
      (fun i hours =>
         c3 <- getitem current_traj (Z.of_nat i) 3 ;;
         c6 <- getitem current_traj (Z.of_nat i) 6 ;;
         let time_list := stamp2datetime ((c3 + c6) / 2)%Q timezone in
         ret (hours ++ [dt_hour time_list]))%M hours h
    = (Ok (hours ++ map (midpoint_hour timezone) (take m (drop k a))), h).
Proof.
  intros Hl. induction m as [|m IH]; intros k hours Hk; simpl.
  - by rewrite app_nil_r.
  - destruct (lookup_lt_is_Some_2 a k) as [r Hr]; [lia|].
    unfold bind at 1. unfold bind at 1.
    rewrite (getitem_read h _ a _ 3 k r (s_t0 r)); try done;
      [| apply norm_index_nat; lia].
    unfold bind at 1.
    rewrite (getitem_read h _ a _ 6 k r (s_t1 r)); try done;
      [| apply norm_index_nat; lia].
    unfold ret at 1. rewrite IH by lia.
    rewrite (drop_S a r k Hr). simpl. by rewrite <- app_assoc.
Qed.
End DayNightSpec.

(** C5.  For every sub-trajectory and timezone, [day_night_split] returns
    two boolean arrays as long as the sub-trajectory; [night_index] is the
    pointwise negation of [day_index], so every row is in exactly one of
    them, and a row is in [day_index] exactly when the hour of its midpoint
    timestamp (mean of its start and end stamps, converted in the
    timezone) is between 8 and 19 inclusive.  The call leaves the heap as
    it found it. *)
Theorem day_night_split_partition `{Forest}
    (h : heap) (current_traj : loc) (a : ndarray) (timezone : string) :
  h !! current_traj = Some a →
  ∃ day_index night_index : list bool,
    day_night_split current_traj timezone h = (Ok (day_index, night_index), h)
    ∧ length day_index = length a
    ∧ length night_index = length a
    ∧ night_index = map negb day_index
    ∧ (∀ (i : nat) (row : segment), a !! i = Some row →
         day_index !! i
         = Some (bool_decide (8 ≤ midpoint_hour timezone row ≤ 19))
         ∧ night_index !! i
           = Some (negb (bool_decide (8 ≤ midpoint_hour timezone row ≤ 19)))).
Proof.
  intros Hl.
  set (day := map (fun hr => (8 <=? hr) && (hr <=? 19))
                  (map (midpoint_hour timezone) a)).
  exists day, (map negb day).
  assert (Hday : ∀ i row, a !! i = Some row →
            day !! i = Some (bool_decide (8 ≤ midpoint_hour timezone row ≤ 19))).
  { intros i row Hrow. subst day.
    rewrite !list_lookup_fmap, Hrow. simpl. f_equal.
    destruct (bool_decide_reflect (8 ≤ midpoint_hour timezone row ≤ 19)) as [Hb|Hb].
    - apply andb_true_iff. split; apply Z.leb_le; lia.
    - apply andb_false_iff.
      destruct (Z.leb_spec 8 (midpoint_hour timezone row)); [|by left].
      right. apply Z.leb_gt. lia. }
  split; [| split; [| split; [| split]]].
  - unfold day_night_split, bind at 1, load. rewrite Hl. simpl.
    unfold bind at 1. rewrite (hours_loop h _ a timezone Hl) by lia.
    simpl. by rewrite drop_0, firstn_all.
  - subst day. by rewrite !length_map.
  - subst day. by rewrite !length_map.
  - done.
  - intros i row Hrow. split; [by apply Hday|].
    rewrite list_lookup_fmap, (Hday i row Hrow). done.
Qed.

(** The split of the demo trajectory in UTC. *)
Lemma day_night_split_partition_witness :
  ∃ day_index night_index : list bool,
    day_night_split (H := utc_january_1970) 7%nat "UTC" demo_heap
      = (Ok (day_index, night_index), demo_heap)
    ∧ length day_index = 4%nat
    ∧ length night_index = 4%nat
    ∧ night_index = map negb day_index
    ∧ (∀ (i : nat) (row : segment), demo_traj !! i = Some row →
         day_index !! i
         = Some (bool_decide
                   (8 ≤ midpoint_hour (H := utc_january_1970) "UTC" row ≤ 19))
         ∧ night_index !! i
           = Some (negb (bool_decide
                   (8 ≤ midpoint_hour (H := utc_january_1970) "UTC" row ≤ 19)))).
Proof.
  apply (day_night_split_partition (H := utc_january_1970)
           demo_heap 7%nat demo_traj "UTC").
  vm_compute. reflexivity.
Defined.

(* ===================================================================== *)
(** ** gps_quality                                                        *)
(* ===================================================================== *)

Section QualitySpec.
Variable obs : Type.
Variable timestamp : obs -> Q.

Lemma Qlt_bool_iff (p q : Q) : Qlt_bool p q = true ↔ (p < q)%Q.
Proof.
  unfold Qlt_bool. rewrite Qlt_alt. destruct (p ?= q)%Q; split; congruence.
Qed.

Lemma py_int_nonneg (q : Q) :
  (0 <= q)%Q → (inject_Z (py_int q) <= q < inject_Z (py_int q + 1))%Q.
Proof.
  intros Hq. unfold py_int.
  destruct (Qle_bool 0 q) eqn:E.
  - split; [apply Qfloor_le | apply Qlt_floor].
  - apply Qle_bool_iff in Hq. congruence.
Qed.

Lemma py_int_neg (q : Q) :
  (q < 0)%Q → (inject_Z (py_int q - 1) < q <= inject_Z (py_int q))%Q.
Proof.
  intros Hq. unfold py_int.
  destruct (Qle_bool 0 q) eqn:E.
  - apply Qle_bool_iff in E. by destruct (Qlt_not_le _ _ Hq).
  - split; [apply Qceiling_lt | apply Qle_ceiling].
Qed.

(** A counting loop adds the number of iterations that pass the test. *)
Lemma count_loop {A} (test : A → bool) (l : list A) (acc : Z) :
  fold_left (fun n x => if test x then n + 1 else n) l acc
  = acc + Z.of_nat (length (List.filter test l)).
Proof.
  revert acc. induction l as [|x l IH]; intros acc; simpl; [lia|].
  rewrite IH. destruct (test x); simpl; lia.
Qed.

Lemma filter_length_bool {A} (test : A → bool) (P : A → Prop)
    `{∀ x, Decision (P x)} (l : list A) :
  (∀ x, test x = true ↔ P x) →
  length (List.filter test l) = length (filter P l).
Proof.
  intros Hiff. induction l as [|x l IH]; [done|]. simpl.
  rewrite filter_cons. destruct (decide (P x)) as [HP|HP].
  - apply Hiff in HP. rewrite HP. simpl. by rewrite IH.
  - destruct (test x) eqn:E; [by apply Hiff in E | done].
Qed.

Lemma hour_test_iff (start_time : Q) (hour : Z) (t : Q) :
  Qle_bool (start_time + inject_Z hour * 3600)%Q t
  && Qlt_bool t (start_time + inject_Z (hour + 1) * 3600)%Q = true
  ↔ in_hour_bucket start_time hour t.
Proof.
  unfold in_hour_bucket.
  rewrite andb_true_iff, Qle_bool_iff, Qlt_bool_iff.
  assert (Heq : (start_time + inject_Z (hour + 1) * 3600
                 == start_time + (inject_Z hour + 1) * 3600)%Q).
  { rewrite inject_Z_plus. reflexivity. }
  by rewrite Heq.
Qed.

Lemma quality_count (data : list obs) (start_time : Q) (num_hours : Z) :
  fold_left
    (fun quality_check hour =>
       let hour_data :=
         List.filter
           (fun r =>
              Qle_bool (start_time + inject_Z hour * 3600)%Q (timestamp r)
              && Qlt_bool (timestamp r)
                          (start_time + inject_Z (hour + 1) * 3600)%Q)
           data in
       if (60 <? Z.of_nat (length hour_data))
       then quality_check + 1 else quality_check)
    (seqZ 0 num_hours) 0
  = Z.of_nat (dense_hours obs timestamp data start_time num_hours).
Proof.
  rewrite (count_loop
    (fun hour => 60 <? Z.of_nat (length (List.filter
       (fun r =>
          Qle_bool (start_time + inject_Z hour * 3600)%Q (timestamp r)
          && Qlt_bool (timestamp r)
                      (start_time + inject_Z (hour + 1) * 3600)%Q) data)))).
  rewrite Z.add_0_l. f_equal. unfold dense_hours. apply filter_length_bool.
  intros hour. unfold bucket_size.
  rewrite <- (filter_length_bool
    (fun r =>
       Qle_bool (start_time + inject_Z hour * 3600)%Q (timestamp r)
       && Qlt_bool (timestamp r) (start_time + inject_Z (hour + 1) * 3600)%Q)
    (fun r => in_hour_bucket start_time hour (timestamp r))).
  - rewrite Z.ltb_lt. lia.
  - intros r. apply hour_test_iff.
Qed.
End QualitySpec.

(** C3.  For a GPS dataframe with at least one row, with [start_time] and
    [end_time] the first and last timestamps and
    [num_hours = int((end_time - start_time) / 3600) + 1], [gps_quality]
    raises ValueError if and only if the number of hour buckets
    [[start_time + h*3600, start_time + (h+1)*3600)], [0 <= h < num_hours],
    holding more than 60 observations is less than [0.5 * num_hours];
    otherwise it returns normally; in both cases the dataframe is left as it
    was. *)
Theorem gps_quality_raises_iff
    (obs : Type) (timestamp : obs → Q) (data : list obs) :
  data ≠ [] →
  ∃ first_row last_row : obs,
    head data = Some first_row ∧ last data = Some last_row ∧
    let start_time := timestamp first_row in
    let end_time := timestamp last_row in
    let num_hours := py_int ((end_time - start_time) / 3600)%Q + 1 in
    let dense := dense_hours obs timestamp data start_time num_hours in
    ((gps_quality obs timestamp data).1 = Raise ValueError
     ↔ (inject_Z (Z.of_nat dense) < 0.5 * inject_Z num_hours)%Q)
    ∧ (¬ (inject_Z (Z.of_nat dense) < 0.5 * inject_Z num_hours)%Q
       → (gps_quality obs timestamp data).1 = Ok tt)
    ∧ (gps_quality obs timestamp data).2 = data.
Proof.
  intros Hne.
  destruct (head data) as [first_row|] eqn:Hhead;
    [| by destruct data].
  destruct (last data) as [last_row|] eqn:Hlast;
    [| by apply last_None in Hlast].
  exists first_row, last_row. split; [done|]. split; [done|].
  intros start_time end_time num_hours dense.
  unfold gps_quality. rewrite Hhead, Hlast. simpl.
  fold start_time end_time num_hours.
  rewrite quality_count. fold dense.
  destruct (Qlt_bool (inject_Z (Z.of_nat dense)) (0.5 * inject_Z num_hours))
    eqn:E.
  - apply Qlt_bool_iff in E. repeat split; try done.
  - assert (¬ (inject_Z (Z.of_nat dense) < 0.5 * inject_Z num_hours)%Q) as Hn.
    { intros Hlt. apply Qlt_bool_iff in Hlt. congruence. }
    repeat split; done.
Qed.

(** The check on three observations half an hour apart. *)
Lemma gps_quality_raises_iff_witness :
  [0; 1800; 3600]%Q ≠ [] ∧
  ∃ first_row last_row : Q,
    head [0; 1800; 3600]%Q = Some first_row
    ∧ last [0; 1800; 3600]%Q = Some last_row ∧
    let start_time := id first_row in
    let end_time := id last_row in
    let num_hours := py_int ((end_time - start_time) / 3600)%Q + 1 in
    let dense := dense_hours Q id [0; 1800; 3600]%Q start_time num_hours in
    ((gps_quality Q id [0; 1800; 3600]%Q).1 = Raise ValueError
     ↔ (inject_Z (Z.of_nat dense) < 0.5 * inject_Z num_hours)%Q)
    ∧ (¬ (inject_Z (Z.of_nat dense) < 0.5 * inject_Z num_hours)%Q
       → (gps_quality Q id [0; 1800; 3600]%Q).1 = Ok tt)
    ∧ (gps_quality Q id [0; 1800; 3600]%Q).2 = [0; 1800; 3600]%Q.
Proof.
  split; [discriminate|].
  apply (gps_quality_raises_iff Q id [0; 1800; 3600]%Q). discriminate.
Defined.

(** Three observations over one hour and one second span two buckets, none
    of them dense: the check raises. *)
Example gps_quality_sparse :
  gps_quality Q id [0; 1800; 3601]%Q = (Raise ValueError, [0; 1800; 3601]%Q).
Proof. vm_compute. reflexivity. Qed.

(** Sixty-one observations one second apart fill the only bucket: the check
    passes. *)
Example gps_quality_dense :
  (gps_quality Z inject_Z (seqZ 0 61)).1 = Ok tt.
Proof. vm_compute. reflexivity. Qed.

Example py_int_truncates :
  py_int (7 # 2) = 3 ∧ py_int (- (7 # 2)) = -3 ∧ py_int 0 = 0.
Proof. vm_compute. repeat split. Qed.

(* ===================================================================== *)
(** ** summary_stats                                                      *)
(* ===================================================================== *)

Section LocSet.
Implicit Types (rs : list (Z * list value)) (cells : list value).

Lemma overwrite_label label cells r : (overwrite label cells r).1 = r.1.
Proof. unfold overwrite. by destruct (Z.eqb r.1 label). Qed.

Lemma existsb_label label rs :
  existsb (Z.eqb label) (map fst rs) = true ↔ label ∈ map fst rs.
Proof.
  rewrite existsb_exists, list_elem_of_In. split.
  - intros (x & Hin & Heq). apply Z.eqb_eq in Heq. by subst.
  - intros Hin. exists label. split; [done | apply Z.eqb_refl].
Qed.

Lemma find_absent label rs :
  label ∉ map fst rs →
  List.find (fun r : Z * list value => Z.eqb r.1 label) rs = None.
Proof.
  induction rs as [|r rs IH]; [done|]. simpl. intros Hnot.
  apply not_elem_of_cons in Hnot as [Hne Hnot].
  destruct (Z.eqb_spec r.1 label) as [Heq|_]; [by destruct Hne | by apply IH].
Qed.

Lemma find_overwritten label cells rs :
  label ∈ map fst rs →
  List.find (fun r : Z * list value => Z.eqb r.1 label)
            (map (overwrite label cells) rs)
  = Some (label, cells).
Proof.
  induction rs as [|r rs IH]; simpl; [by intros ?%elem_of_nil|].
  intros Hin. unfold overwrite at 1 2.
  destruct (r.1 =? label) eqn:E; simpl.
  - rewrite E. apply Z.eqb_eq in E. by rewrite E.
  - rewrite E. apply Z.eqb_neq in E.
    apply IH. apply elem_of_cons in Hin as [Heq|Hin]; [congruence | done].
Qed.

Lemma find_other_overwritten label other cells rs :
  other ≠ label →
  List.find (fun r : Z * list value => Z.eqb r.1 other)
            (map (overwrite label cells) rs)
  = List.find (fun r : Z * list value => Z.eqb r.1 other) rs.
Proof.
  intros Hne. induction rs as [|r rs IH]; [done|]. simpl.
  rewrite overwrite_label, IH.
  destruct (Z.eqb_spec r.1 other) as [Heq|_]; [|done].
  unfold overwrite. destruct (Z.eqb_spec r.1 label); [congruence | done].
Qed.

Lemma find_other_appended label other cells rs :
  other ≠ label →
  List.find (fun r : Z * list value => Z.eqb r.1 other)
            (rs ++ [(label, cells)])
  = List.find (fun r : Z * list value => Z.eqb r.1 other) rs.
Proof.
  intros Hne. induction rs as [|r rs IH]; simpl.
  - destruct (Z.eqb_spec label other); [congruence | done].
  - by rewrite IH.
Qed.

Lemma find_appended label cells rs :
  label ∉ map fst rs →
  List.find (fun r : Z * list value => Z.eqb r.1 label)
            (rs ++ [(label, cells)])
  = Some (label, cells).
Proof.
  induction rs as [|r rs IH]; simpl; intros Hnot.
  - by rewrite Z.eqb_refl.
  - apply not_elem_of_cons in Hnot as [Hne Hnot].
    destruct (Z.eqb_spec r.1 label) as [Heq|_]; [by destruct Hne | by apply IH].
Qed.

Lemma others_overwritten label cells rs :
  filter (fun r : Z * list value => r.1 ≠ label)
         (map (overwrite label cells) rs)
  = filter (fun r : Z * list value => r.1 ≠ label) rs.
Proof.
  induction rs as [|r rs IH]; [done|]. simpl. rewrite !filter_cons, IH.
  rewrite overwrite_label. destruct (decide (r.1 ≠ label)) as [Hne|Heq]; [|done].
  unfold overwrite. by destruct (Z.eqb_spec r.1 label).
Qed.

Lemma labelled_overwritten label cells rs :
  length (filter (fun r : Z * list value => r.1 = label)
                 (map (overwrite label cells) rs))
  = length (filter (fun r : Z * list value => r.1 = label) rs).
Proof.
  induction rs as [|r rs IH]; [done|]. simpl. rewrite !filter_cons.
  rewrite overwrite_label. destruct (decide (r.1 = label)); simpl; by rewrite IH.
Qed.

Lemma labelled_absent label rs :
  label ∉ map fst rs →
  filter (fun r : Z * list value => r.1 = label) rs = [].
Proof.
  induction rs as [|r rs IH]; [done|]. simpl. intros Hnot.
  apply not_elem_of_cons in Hnot as [Hne Hnot].
  rewrite filter_cons. destruct (decide (r.1 = label)); [congruence | by apply IH].
Qed.

(** With unique labels, a label that occurs labels exactly one row. *)
Lemma labelled_once label rs :
  NoDup (map fst rs) → label ∈ map fst rs →
  length (filter (fun r : Z * list value => r.1 = label) rs) = 1%nat.
Proof.
  induction rs as [|r rs IH]; simpl; [by intros _ ?%elem_of_nil|].
  intros [Hnot Hnd]%NoDup_cons Hin. rewrite filter_cons.
  destruct (decide (r.1 = label)) as [Heq|Hne]; simpl.
  - subst. by rewrite labelled_absent.
  - apply IH; [done|].
    apply elem_of_cons in Hin as [Heq|Hin]; [congruence | done].
Qed.
End LocSet.

(** C6.  For a daily-statistics dataframe (one that has the four columns
    read) and a summary dataframe of eight columns with unique index labels,
    [summary_stats] returns the summary dataframe in which the row labelled
    0, and only that row, holds in order: the number of daily rows, the sum
    of the daily [observed_time] column, and the mean and standard deviation
    of the daily [dist_travelled], [home_time] and [home_max_dist] columns;
    there is exactly one such row and every other row is as it was. *)
Theorem summary_stats_fills_row_zero `{NumPy}
    (daily summary : DataFrame)
    (observed_time dist_travelled home_time home_max_dist : list value) :
  column daily "observed_time" = Ok observed_time →
  column daily "dist_travelled" = Ok dist_travelled →
  column daily "home_time" = Ok home_time →
  column daily "home_max_dist" = Ok home_max_dist →
  length (columns summary) = 8%nat →
  NoDup (labels summary) →
  ∃ summary' : DataFrame,
    summary_stats daily summary = Ok summary'
    ∧ columns summary' = columns summary
    ∧ loc_get summary' 0
      = Some [ Num (inject_Z (Z.of_nat (length (rows daily))));
               py_sum observed_time;
               np_mean dist_travelled; np_std dist_travelled;
               np_mean home_time; np_std home_time;
               np_mean home_max_dist; np_std home_max_dist ]
    ∧ length (filter (fun r : Z * list value => r.1 = 0) (rows summary'))
      = 1%nat
    ∧ filter (fun r : Z * list value => r.1 ≠ 0) (rows summary')
      = filter (fun r : Z * list value => r.1 ≠ 0) (rows summary)
    ∧ (∀ label : Z, label ≠ 0 → loc_get summary' label = loc_get summary label).
Proof.
  intros Hobs Hdist Hhome Hmax Hcols Hnd.
  unfold summary_stats. rewrite Hobs, Hdist, Hhome, Hmax. simpl.
  unfold loc_set. simpl length at 1. rewrite Hcols. simpl negb. cbv iota.
  unfold labels in *.
  destruct (existsb (Z.eqb 0) (map fst (rows summary))) eqn:E.
  - apply existsb_label in E.
    eexists. split; [reflexivity|]. simpl. split; [done|].
    unfold loc_get. simpl.
    split; [| split; [| split]].
    + by rewrite find_overwritten.
    + rewrite labelled_overwritten. by apply labelled_once.
    + apply others_overwritten.
    + intros label Hne.
      by rewrite find_other_overwritten.
  - assert (Hnot : 0 ∉ map fst (rows summary)).
    { intros Hin. apply existsb_label in Hin. congruence. }
    eexists. split; [reflexivity|]. simpl. split; [done|].
    unfold loc_get. simpl. split; [| split; [| split]].
    + by rewrite find_appended.
    + rewrite filter_app, labelled_absent by done. done.
    + rewrite filter_app. simpl. rewrite filter_cons. simpl.
      destruct (decide (0 ≠ 0)); [done|]. by rewrite filter_nil, app_nil_r.
    + intros label Hne. by rewrite find_other_appended.
Qed.

(** The summary of the two demo days, into an empty summary frame. *)
Lemma summary_stats_fills_row_zero_witness :
  ∃ summary' : DataFrame,
    summary_stats (H := numpy_exact) demo_daily demo_summary = Ok summary'
    ∧ columns summary' = summary_columns
    ∧ loc_get summary' 0
      = Some [ Num (inject_Z 2);
               py_sum (map Num [80000; 70000]%Q);
               np_mean (NumPy := numpy_exact) (map Num [100; 300]%Q);
               np_std (NumPy := numpy_exact) (map Num [100; 300]%Q);
               np_mean (NumPy := numpy_exact) (map Num [60000; 50000]%Q);
               np_std (NumPy := numpy_exact) (map Num [60000; 50000]%Q);
               np_mean (NumPy := numpy_exact) (map Num [500; 1500]%Q);
               np_std (NumPy := numpy_exact) (map Num [500; 1500]%Q) ]
    ∧ length (filter (fun r : Z * list value => r.1 = 0) (rows summary'))
      = 1%nat
    ∧ filter (fun r : Z * list value => r.1 ≠ 0) (rows summary') = []
    ∧ (∀ label : Z, label ≠ 0 →
         loc_get summary' label = loc_get demo_summary label).
Proof.
  apply (summary_stats_fills_row_zero (H := numpy_exact)
           demo_daily demo_summary
           (map Num [80000; 70000]%Q) (map Num [100; 300]%Q)
           (map Num [60000; 50000]%Q) (map Num [500; 1500]%Q)).
  - reflexivity.
  - reflexivity.
  - reflexivity.
  - reflexivity.
  - reflexivity.
  - apply NoDup_nil_2.
Defined.

(** The summary of the two demo days. *)
Example summary_stats_demo :
  summary_stats (H := numpy_exact) demo_daily demo_summary
  = Ok (DF summary_columns
           [ (0, map Num [2; 150000; 200; 100; 55000; 5000; 1000; 500]%Q) ]).
Proof. vm_compute. reflexivity. Qed.

(* ===================================================================== *)
(** ** gps_stats                                                          *)
(* ===================================================================== *)

Section MonadFacts.
Lemma bind_ok_inv {A B} (m : M A) (k : A → M B) h v h' :
  bind m k h = (Ok v, h') →
  ∃ a h1, m h = (Ok a, h1) ∧ k a h1 = (Ok v, h').
Proof.
  unfold bind. destruct (m h) as [[a|e] h1]; [eauto | discriminate].
Qed.

Lemma bind_raises {A B} (m : M A) (k : A → M B) h :
  (∀ a h1, raises (k a h1)) → raises (bind m k h).
Proof.
  intros Hk. unfold bind. destruct (m h) as [[a|e] h1]; [apply Hk|].
  by exists e, h1.
Qed.

Lemma load_global_unbound {A} (name : string) (d : A) h :
  existsb (String.eqb name) (gps_util_globals ++ builtins_used) = false →
  load_global name d h = (Raise (NameError name), h).
Proof. intros E. unfold load_global. by rewrite E. Qed.

Lemma for_each_ok_inv {A} (xs : list A) (body : A → unit → M unit) h h' :
  for_each xs body tt h = (Ok tt, h') →
  ∀ x, x ∈ xs → ∃ h1 h2, body x tt h1 = (Ok tt, h2).
Proof.
  revert h. induction xs as [|x xs IH]; intros h Hrun y Hin.
  - by apply elem_of_nil in Hin.
  - simpl in Hrun. apply bind_ok_inv in Hrun as ([] & h1 & Hx & Hrest).
    apply elem_of_cons in Hin as [->|Hin]; [by exists h, h1 | by eapply IH].
Qed.
End MonadFacts.

Section GpsStatsFacts.
Context `{Forest}.
Variable great_circle_dist : Q → Q → Q → Q → Q.
Variable temp : loc.

(** Whenever [gps_stats] returns, it returns the frame it was given. *)
Lemma gps_stats_returns_its_input traj df frequency timezone h df' h' :
  gps_stats great_circle_dist temp traj df frequency timezone h
  = (Ok df', h') →
  df' = df.
Proof.
  unfold gps_stats. intros Hrun.
  repeat (apply bind_ok_inv in Hrun as (? & ? & _ & Hrun)).
  unfold ret in Hrun. congruence.
Qed.

(** A window that overlaps a segment never completes: its iteration
    raises (at the latest when it loads [great_circle_dist]). *)
Lemma window_stats_overlap_raises
    traj df frequency timezone home_coords start_stamp window i h a :
  h !! traj = Some a →
  sum_bool
    (map (fun r =>
            Qlt_bool (s_t0 r) (inject_Z (start_stamp + (i + 1) * window))
            && Qlt_bool (inject_Z (start_stamp + i * window)) (s_t1 r)) a)
  ≠ 0 →
  raises (window_stats great_circle_dist temp traj df frequency timezone
            home_coords start_stamp window i h).
Proof.
  intros Hl Hsum. unfold window_stats.
  unfold bind at 1, load. rewrite Hl. simpl.
  apply Z.eqb_neq in Hsum. rewrite Hsum.
  do 3 (apply bind_raises; intros).
  unfold bind. rewrite load_global_unbound by reflexivity.
  by eexists _, _.
Qed.

Lemma getitem_ok_inv (l : loc) (i : Z) (j : nat) (h h' : heap) (v : Q) :
  getitem l i j h = (Ok v, h') →
  h' = h ∧ ∃ a k r, h !! l = Some a ∧ norm_index (length a) i = Some k
                    ∧ a !! k = Some r ∧ cell r j = Some v.
Proof.
  unfold getitem, bind, load, lift.
  destruct (h !! l) as [a|]; simpl; [|discriminate].
  destruct (norm_index (length a) i) as [k|] eqn:Hk; simpl; [|discriminate].
  destruct (a !! k) as [r|] eqn:Hr; simpl; [|discriminate].
  destruct (cell r j) as [c|] eqn:Hc; simpl; [|discriminate].
  intros [= <- <-]. split; [done|]. by exists a, k, r.
Qed.

Lemma sum_bool_nonneg (mask : list bool) : 0 ≤ sum_bool mask.
Proof.
  induction mask as [|b mask IH]; [done|].
  rewrite sum_bool_cons. destruct b; lia.
Qed.

Lemma sum_bool_zero {A} (test : A → bool) (a : list A) :
  sum_bool (map test a) = 0 → ∀ r, r ∈ a → test r = false.
Proof.
  induction a as [|x a IH]; intros Hsum r Hin; [by apply elem_of_nil in Hin|].
  simpl in Hsum. rewrite sum_bool_cons in Hsum.
  pose proof (sum_bool_nonneg (map test a)).
  apply elem_of_cons in Hin as [->|Hin].
  - destruct (test x); [lia | done].
  - apply IH; [destruct (test x); lia | done].
Qed.

(** The windows of a loop that completes overlap no segment, and the loop
    leaves the heap as it found it. *)
Lemma window_loop_ok_inv
    traj df frequency timezone home_coords start_stamp window a xs h h' :
  h !! traj = Some a →
  for_each xs
    (fun i (_ : unit) =>
       window_stats great_circle_dist temp traj df frequency timezone
                    home_coords start_stamp window i) tt h
  = (Ok tt, h') →
  h' = h
  ∧ ∀ i, i ∈ xs →
      sum_bool
        (map (fun r =>
                Qlt_bool (s_t0 r) (inject_Z (start_stamp + (i + 1) * window))
                && Qlt_bool (inject_Z (start_stamp + i * window)) (s_t1 r)) a)
      = 0.
Proof.
  intros Hl. revert h'. induction xs as [|x xs IH]; intros h' Hrun.
  - simpl in Hrun. injection Hrun as <-. split; [done|].
    by intros i ?%elem_of_nil.
  - simpl in Hrun. apply bind_ok_inv in Hrun as ([] & h1 & Hx & Hrest).
    destruct (Z.eq_dec
      (sum_bool
         (map (fun r =>
                 Qlt_bool (s_t0 r) (inject_Z (start_stamp + (x + 1) * window))
                 && Qlt_bool (inject_Z (start_stamp + x * window)) (s_t1 r)) a))
      0) as [Hzero|Hnz].
    + assert (h1 = h) as ->.
      { unfold window_stats, bind at 1, load in Hx. rewrite Hl in Hx.
        simpl in Hx. rewrite Hzero in Hx. simpl in Hx.
        unfold bind, lift, ret in Hx.
        destruct (pd_Series _ _); by injection Hx. }
      destruct (IH _ Hrest) as [-> Hall]. split; [done|].
      intros i [->|Hin]%elem_of_cons; [done | by apply Hall].
    + destruct (window_stats_overlap_raises traj df frequency timezone
                  home_coords start_stamp window x h a Hl Hnz)
        as (e & h2 & Hraise).
      rewrite Hraise in Hx. discriminate Hx.
Qed.

(** A call of [gps_stats] that returns has met no window overlapping a
    segment: the trajectory is not empty, and for every window of the layout
    no row starts before the window ends and ends after it starts. *)
Lemma gps_stats_ok_inv traj df frequency timezone h df' h' :
  gps_stats great_circle_dist temp traj df frequency timezone h
  = (Ok df', h') →
  ∃ (a : ndarray) (first_row last_row : segment),
    h !! traj = Some a
    ∧ head a = Some first_row ∧ last a = Some last_row ∧
    let start_stamp :=
      datetime2stamp
        (truncate frequency (stamp2datetime (s_t0 first_row) timezone))
        timezone in
    let end_stamp :=
      datetime2stamp
        (truncate frequency (stamp2datetime (s_t1 last_row) timezone))
        timezone in
    let window := window_length frequency in
    ∀ (i : Z) (r : segment),
      0 ≤ i < (end_stamp - start_stamp) `div` window → r ∈ a →
      ¬ ((s_t0 r < inject_Z (start_stamp + (i + 1) * window))%Q
         ∧ (inject_Z (start_stamp + i * window) < s_t1 r)%Q).
Proof.
  unfold gps_stats. intros Hrun.
  apply bind_ok_inv in Hrun as (a & h0 & Hload & Hrun).
  unfold load in Hload. destruct (h !! traj) as [a'|] eqn:Hl; [|discriminate].
  simpl in Hload. injection Hload as -> <-.
  apply bind_ok_inv in Hrun as (obs_traj & h1 & Hmask & Hrun).
  rewrite (mask_rows_run h traj a _ Hl) in Hmask by (by rewrite length_map).
  injection Hmask as <- <-.
  apply bind_ok_inv in Hrun as (obs_rows & h2 & Hobs & Hrun).
  unfold load in Hobs. rewrite lookup_insert_eq in Hobs. simpl in Hobs.
  injection Hobs as <- <-.
  apply bind_ok_inv in Hrun as (home & h3 & Hhome & Hrun).
  unfold lift in Hhome. injection Hhome as Hhome <-.
  assert (Hl1 : (<[fresh (dom h) := mask_select a (map observed a)]> h) !! traj
                = Some a).
  { rewrite lookup_insert_ne; [done|]. intros Heq.
    pose proof (fresh_loc_unused h) as Hf. rewrite Heq, Hl in Hf. discriminate. }
  apply bind_ok_inv in Hrun as (first_t0 & h4 & Hfirst & Hrun).
  apply getitem_ok_inv in Hfirst as (-> & a1 & k1 & r1 & Ha1 & Hk1 & Hr1 & Hc1).
  rewrite Hl1 in Ha1. injection Ha1 as <-.
  apply bind_ok_inv in Hrun as (last_t1 & h5 & Hlast & Hrun).
  apply getitem_ok_inv in Hlast as (-> & a2 & k2 & r2 & Ha2 & Hk2 & Hr2 & Hc2).
  rewrite Hl1 in Ha2. injection Ha2 as <-.
  assert (Hne : length a ≠ 0%nat).
  { intros Hz. apply lookup_lt_Some in Hr1. lia. }
  rewrite (norm_index_front _ Hne) in Hk1. injection Hk1 as <-.
  rewrite (norm_index_back _ Hne) in Hk2. injection Hk2 as <-.
  simpl in Hc1, Hc2. injection Hc1 as <-. injection Hc2 as <-.
  apply bind_ok_inv in Hrun as ([] & h6 & Hloop & _).
  apply (window_loop_ok_inv _ _ _ _ _ _ _ a) in Hloop as [_ Hall]; [|done].
  exists a, r1, r2. split; [done|]. split; [by rewrite head_lookup|].
  split; [by rewrite last_lookup, <- Nat.sub_1_r |].
  intros i r Hi Hr [Hlo Hhi].
  assert (Hin : i ∈ seqZ 0
            ((datetime2stamp
                (truncate frequency (stamp2datetime (s_t1 r2) timezone))
                timezone
              - datetime2stamp
                  (truncate frequency (stamp2datetime (s_t0 r1) timezone))
                  timezone) `div` window_length frequency))
    by (apply elem_of_seqZ; lia).
  pose proof (sum_bool_zero _ a (Hall i Hin) r Hr) as Hfalse.
  apply andb_false_iff in Hfalse as [Hf|Hf].
  - apply (Qlt_bool_iff (s_t0 r)) in Hlo. rewrite Hlo in Hf. discriminate Hf.
  - apply (Qlt_bool_iff _ (s_t1 r)) in Hhi. rewrite Hhi in Hf. discriminate Hf.
Qed.
End GpsStatsFacts.

Section WindowLayout.
(** The windows [gps_stats] iterates over tile the span between the two
    truncated stamps: window [i] is
    [[start_stamp + i * window, start_stamp + (i + 1) * window)], each
    window ends where the next begins, all of them lie before
    [end_stamp], and less than one window is left over. *)
Lemma windows_tile (start_stamp end_stamp window : Z) :
  0 < window → start_stamp ≤ end_stamp →
  let no_windows := (end_stamp - start_stamp) `div` window in
  length (seqZ 0 no_windows) = Z.to_nat no_windows
  ∧ (∀ i, i ∈ seqZ 0 no_windows →
       0 ≤ i < no_windows
       ∧ start_stamp + (i + 1) * window - (start_stamp + i * window) = window
       ∧ start_stamp ≤ start_stamp + i * window
       ∧ start_stamp + (i + 1) * window ≤ end_stamp)
  ∧ end_stamp - window < start_stamp + no_windows * window ≤ end_stamp.
Proof.
  intros Hw Hle no_windows.
  assert (Hdiv := Z.div_mod (end_stamp - start_stamp) window ltac:(lia)).
  assert (Hmod := Z.mod_pos_bound (end_stamp - start_stamp) window Hw).
  fold no_windows in Hdiv.
  assert (0 ≤ no_windows) by (apply Z.div_pos; lia).
  split; [by rewrite length_seqZ|]. split; [|nia].
  intros i Hi. apply elem_of_seqZ in Hi. repeat split; try lia; nia.
Qed.

Lemma window_length_cases :
  window_length "hourly" = 3600 ∧ window_length "daily" = 86400.
Proof. by split. Qed.
End WindowLayout.

(** C1.  What [gps_stats] does with the rows it builds.  (1) Whenever it
    returns, for any trajectory, frequency and timezone, it returns the
    dataframe it was given: the frame each [df.append] builds is dropped,
    so no window adds a row.  (2) On a trajectory of four segments spanning
    two full hours it does not return at all: the first window overlaps a
    segment and the iteration raises NameError.  (3) On a trajectory whose
    two hourly windows overlap no segment it returns the empty frame it was
    given, not two rows of NA statistics. *)
Theorem gps_stats_adds_no_window_row :
  (∀ (F : Forest) (gcd : Q → Q → Q → Q → Q) (temp traj : loc)
     (df : DataFrame) (frequency timezone : string) (h h' : heap)
     (df' : DataFrame),
     gps_stats (H := F) gcd temp traj df frequency timezone h = (Ok df', h') →
     df' = df)
  ∧ (∀ (gcd : Q → Q → Q → Q → Q) (temp : loc),
       (gps_stats (H := utc_january_1970) gcd temp
          7%nat hourly_frame "hourly" "UTC" demo_heap).1
       = Raise (NameError "great_circle_dist"))
  ∧ (∀ (gcd : Q → Q → Q → Q → Q) (temp : loc),
       let stamp (t : Q) :=
         datetime2stamp (Forest := utc_january_1970)
           (truncate "hourly"
              (stamp2datetime (Forest := utc_january_1970) t "UTC")) "UTC" in
       (stamp 7200%Q - stamp 0%Q) `div` window_length "hourly" = 2
       ∧ (gps_stats (H := utc_january_1970) gcd temp
            3%nat hourly_frame "hourly" "UTC" {[ 3%nat := gap_traj ]}).1
         = Ok hourly_frame).
Proof.
  split; [| split].
  - intros. by eapply gps_stats_returns_its_input.
  - intros. vm_compute. reflexivity.
  - intros. split; vm_compute; reflexivity.
Qed.

(** C4.  The home statistics of [gps_stats] are never computed.  (1) In any
    window that overlaps a segment the iteration raises before it reaches
    them.  (2) On a two-day trajectory with frequency "daily" the call ends
    in NameError for [great_circle_dist].  (3) The two names the home
    statistics read, [great_circle_dist] and [temp], are bound nowhere:
    loading either raises NameError, so the distances are not taken from
    the smoothed sub-trajectory [current_traj].  (4) A call that returns
    has met no window that overlaps a segment.  (5) On the trajectory of
    four segments, two of them pauses in the night, with frequency "hourly"
    the call ends in NameError for [great_circle_dist] as well. *)
Theorem gps_stats_home_statistics_unreachable :
  (∀ (F : Forest) (gcd : Q → Q → Q → Q → Q) (temp traj : loc)
     (df : DataFrame) (frequency timezone : string) (home_coords : Q * Q)
     (start_stamp window i : Z) (h : heap) (a : ndarray),
     h !! traj = Some a →
     sum_bool
       (map (fun r =>
               Qlt_bool (s_t0 r) (inject_Z (start_stamp + (i + 1) * window))
               && Qlt_bool (inject_Z (start_stamp + i * window)) (s_t1 r)) a)
     ≠ 0 →
     raises (window_stats (H := F) gcd temp traj df frequency timezone
               home_coords start_stamp window i h))
  ∧ (∀ (gcd : Q → Q → Q → Q → Q) (temp : loc),
       (gps_stats (H := utc_january_1970) gcd temp
          5%nat daily_frame "daily" "UTC" {[ 5%nat := two_day_traj ]}).1
       = Raise (NameError "great_circle_dist"))
  ∧ (∀ (gcd : Q → Q → Q → Q → Q) (temp : loc) (h : heap),
       load_global "great_circle_dist" gcd h
       = (Raise (NameError "great_circle_dist"), h)
       ∧ load_global "temp" temp h = (Raise (NameError "temp"), h))
  ∧ (∀ (F : Forest) (gcd : Q → Q → Q → Q → Q) (temp traj : loc)
       (df df' : DataFrame) (frequency timezone : string) (h h' : heap),
       gps_stats (H := F) gcd temp traj df frequency timezone h = (Ok df', h') →
       ∃ (a : ndarray) (first_row last_row : segment),
         h !! traj = Some a
         ∧ head a = Some first_row ∧ last a = Some last_row ∧
         let start_stamp :=
           datetime2stamp
             (truncate frequency (stamp2datetime (s_t0 first_row) timezone))
             timezone in
         let end_stamp :=
           datetime2stamp
             (truncate frequency (stamp2datetime (s_t1 last_row) timezone))
             timezone in
         let window := window_length frequency in
         ∀ (i : Z) (r : segment),
           0 ≤ i < (end_stamp - start_stamp) `div` window → r ∈ a →
           ¬ ((s_t0 r < inject_Z (start_stamp + (i + 1) * window))%Q
              ∧ (inject_Z (start_stamp + i * window) < s_t1 r)%Q))
  ∧ (∀ (gcd : Q → Q → Q → Q → Q) (temp : loc),
       (gps_stats (H := utc_january_1970) gcd temp
          7%nat hourly_frame "hourly" "UTC" demo_heap).1
       = Raise (NameError "great_circle_dist")).
Proof.
  split; [| split; [| split; [| split]]].
  - intros. by eapply window_stats_overlap_raises.
  - intros. vm_compute. reflexivity.
  - intros. split; by apply load_global_unbound.
  - intros F gcd temp traj df df' frequency timezone h h' Hrun.
    by apply (gps_stats_ok_inv gcd temp traj df frequency timezone h df' h').
  - intros. vm_compute. reflexivity.
Qed.

(* ===================================================================== *)
(** ** diarization_hf_utils                                               *)
(* ===================================================================== *)

Section DiarizationFacts.
Context `{Diarizer}.
Implicit Types (prompts : gmap Z string) (input_param : pydict).

Lemma chunk_tuple_inv prompts endpoint_name input_param idx args :
  chunk_tuple prompts endpoint_name input_param idx = Ok args →
  ∃ prompt, prompts !! idx = Some prompt
    ∧ args = [AVal (VInt idx); AVal (VStr prompt); ADict input_param;
              AVal (VStr endpoint_name)].
Proof.
  unfold chunk_tuple. destruct (prompts !! idx) as [p|]; simpl; [|done].
  intros [= <-]. by exists p.
Qed.

Lemma chunk_tuple_present prompts endpoint_name input_param idx prompt :
  prompts !! idx = Some prompt →
  chunk_tuple prompts endpoint_name input_param idx
  = Ok [AVal (VInt idx); AVal (VStr prompt); ADict input_param;
        AVal (VStr endpoint_name)].
Proof. intros Hp. unfold chunk_tuple. by rewrite Hp. Qed.

Lemma retry_always_raising {A B} (f : A → result B) (x : A) n :
  is_ok (f x) = false → retry n f x = Raise RetriesExhausted.
Proof.
  intros Hf. induction n as [|n IH]; simpl; [done|].
  destruct (f x); [done | apply IH].
Qed.

(** A tuple of four elements does not unpack into three names. *)
Lemma four_tuple_rejected (a b c d : arg) :
  unpack3 [a; b; c; d] = Raise ValueError
  ∧ process_chunk_hf_body [a; b; c; d] = Raise ValueError
  ∧ process_chunk_hf [a; b; c; d] = Raise RetriesExhausted.
Proof.
  split; [done|]. split; [done|].
  unfold process_chunk_hf, exponential_backoff_decorator.
  by apply retry_always_raising.
Qed.

Lemma sorted_keys_present prompts idx :
  idx ∈ sorted_keys prompts ↔ is_Some (prompts !! idx).
Proof.
  unfold sorted_keys. rewrite merge_sort_Permutation.
  rewrite list_elem_of_fmap. split.
  - intros ([k v] & -> & Hin). apply elem_of_map_to_list in Hin. by exists v.
  - intros [v Hv]. exists (idx, v). split; [done|].
    by apply elem_of_map_to_list.
Qed.

Lemma sorted_keys_nonempty prompts :
  prompts ≠ ∅ → ∃ idx rest, sorted_keys prompts = idx :: rest.
Proof.
  intros Hne. destruct (sorted_keys prompts) as [|idx rest] eqn:E; [|eauto].
  destruct Hne. apply map_empty. intros i.
  destruct (prompts !! i) as [v|] eqn:Hi; [|done].
  assert (i ∈ sorted_keys prompts) as Hin
    by (apply sorted_keys_present; eauto).
  rewrite E in Hin. by apply elem_of_nil in Hin.
Qed.

Lemma map_res_chunk_tuples prompts endpoint_name input_param keys :
  (∀ idx, idx ∈ keys → is_Some (prompts !! idx)) →
  ∃ tuples,
    map_res (chunk_tuple prompts endpoint_name input_param) keys = Ok tuples
    ∧ length tuples = length keys
    ∧ ∀ args, args ∈ tuples → ∃ a b c d, args = [a; b; c; d].
Proof.
  induction keys as [|idx keys IH]; intros Hkeys; simpl.
  - exists []. split; [done|]. split; [done|]. by intros ? ?%elem_of_nil.
  - destruct (Hkeys idx) as [p Hp]; [by left|].
    destruct IH as (tuples & -> & Hlen & Hshape).
    { intros i Hi. apply Hkeys. by right. }
    unfold chunk_tuple at 1. rewrite Hp. simpl.
    eexists. split; [done|]. split; [simpl; by rewrite Hlen|].
    intros args [->|Hin]%elem_of_cons; [by eexists _, _, _, _ | by apply Hshape].
Qed.

Lemma sequential_stays_raised prompts endpoint_name input_param keys e :
  fold_left
    (fun (acc : result (gmap Z string)) idx =>
       results <- acc ;;
       args <- chunk_tuple prompts endpoint_name input_param idx ;;
       out <- process_chunk_hf args ;;
       Ok (<[idx := out.2]> results))%res
    keys (Raise e)
  = Raise e.
Proof. induction keys as [|idx keys IH]; [done | apply IH]. Qed.

(** For a non-empty [prompts], neither branch returns a dictionary. *)
Lemma call_diarization_hf_raises prompts endpoint_name input_param parallel :
  prompts ≠ ∅ →
  input_param !! "parallel_processing" = Some parallel →
  call_diarization_hf prompts endpoint_name input_param
  = Raise RetriesExhausted.
Proof.
  intros Hne Hpar. unfold call_diarization_hf, subscript.
  rewrite Hpar. simpl.
  destruct (sorted_keys_nonempty prompts Hne) as (idx & rest & Hkeys).
  assert (Hall : ∀ i, i ∈ sorted_keys prompts → is_Some (prompts !! i))
    by (intros i; apply sorted_keys_present).
  destruct (py_eq parallel (VInt 1)).
  - unfold Pool. destruct (size prompts) as [|n] eqn:Hsize.
    { by apply map_size_empty_iff in Hsize. }
    simpl.
    destruct (map_res_chunk_tuples prompts endpoint_name input_param
                (sorted_keys prompts) Hall) as (tuples & -> & Hlen & Hshape).
    simpl. rewrite Hkeys in Hlen.
    destruct tuples as [|args tuples]; [done|].
    destruct (Hshape args) as (a & b & c & d & ->); [by left|].
    reflexivity.
  - destruct (Hall idx) as [p Hp]; [rewrite Hkeys; by left|].
    rewrite Hkeys. cbn [fold_left rbind].
    rewrite (chunk_tuple_present _ _ _ _ _ Hp). simpl.
    apply sequential_stays_raised.
Qed.
End DiarizationFacts.

(** C10.  The argument tuples [call_diarization_hf] builds, in the parallel
    and in the sequential branch alike, have four elements (index, prompt,
    parameters, endpoint name), while [process_chunk_hf] unpacks its argument
    into three names: for every chunk of every prompts dictionary the
    unpacking raises ValueError, and the retry-wrapped call never returns. *)
Theorem chunk_tuple_arity_mismatch :
  (∀ (D : Diarizer) (prompts : gmap Z string) (endpoint_name : string)
     (input_param : pydict) (idx : Z) (args : list arg),
     chunk_tuple prompts endpoint_name input_param idx = Ok args →
     length args = 4%nat
     ∧ unpack3 args = Raise ValueError
     ∧ process_chunk_hf_body (H := D) args = Raise ValueError
     ∧ process_chunk_hf (H := D) args = Raise RetriesExhausted)
  ∧ unpack3 [AVal (VInt 0); AVal (VStr "hello"); ADict ∅; AVal (VStr "ep")]
    = Raise ValueError
  ∧ process_chunk_hf (H := echo_diarizer)
      [AVal (VInt 0); AVal (VStr "hello");
       ADict {[ "quantized" := VBool false ]}]
    = Ok (AVal (VInt 0), "hello"%string).
Proof.
  split; [| split].
  - intros D prompts endpoint_name input_param idx args Hargs.
    apply chunk_tuple_inv in Hargs as (prompt & _ & ->).
    split; [done|]. apply four_tuple_rejected.
  - reflexivity.
  - vm_compute. reflexivity.
Qed.

(** C7.  [call_diarization_hf] does not map chunk indexes to model outputs
    in either branch.  (1) For every non-empty [prompts], with
    [parallel_processing] set to 1 or to anything else, the call raises once
    the retries of the first chunk are used up (the four-element tuple does
    not unpack).  (2) For an empty [prompts] the two branches differ: the
    sequential loop returns the empty dictionary, the parallel branch raises
    ValueError from a pool of zero processes. *)
Theorem call_diarization_hf_returns_no_outputs :
  (∀ (D : Diarizer) (prompts : gmap Z string) (endpoint_name : string)
     (input_param : pydict) (parallel : pyval),
     prompts ≠ ∅ →
     input_param !! "parallel_processing" = Some parallel →
     call_diarization_hf (H := D) prompts endpoint_name input_param
     = Raise RetriesExhausted)
  ∧ call_diarization_hf (H := echo_diarizer)
      {[ 0 := "hello"%string; 1 := "world"%string ]} "ep"
      {[ "parallel_processing" := VInt 1; "quantized" := VBool false ]}
    = Raise RetriesExhausted
  ∧ call_diarization_hf (H := echo_diarizer)
      {[ 0 := "hello"%string; 1 := "world"%string ]} "ep"
      {[ "parallel_processing" := VInt 0; "quantized" := VBool false ]}
    = Raise RetriesExhausted
  ∧ call_diarization_hf (H := echo_diarizer) ∅ "ep"
      {[ "parallel_processing" := VInt 1 ]}
    = Raise ValueError
  ∧ call_diarization_hf (H := echo_diarizer) ∅ "ep"
      {[ "parallel_processing" := VInt 0 ]}
    = Ok ∅.
Proof.
  split; [| split; [| split; [| split]]].
  - intros. by eapply call_diarization_hf_raises.
  - vm_compute. reflexivity.
  - vm_compute. reflexivity.
  - vm_compute. reflexivity.
  - vm_compute. reflexivity.
Qed.

(* ===================================================================== *)
(** ** speech_transcribe_cloud                                            *)
(* ===================================================================== *)

Section TranscriptionFacts.
Context `{TranscribeUtil}.

Lemma read_kwargs_show (kwargs : pydict) :
  read_kwargs kwargs !! "ShowSpeakerLabels"
  = Some (dict_get kwargs "ShowSpeakerLabels" (VBool true)).
Proof. unfold read_kwargs. by simplify_map_eq. Qed.

Lemma read_kwargs_scale (kwargs : pydict) :
  read_kwargs kwargs !! "c_scale"
  = Some (dict_get kwargs "c_scale" (VStr "")).
Proof. unfold read_kwargs. by simplify_map_eq. Qed.

(** For keyword arguments of any type: the response is reshaped exactly
    when [ShowSpeakerLabels == True] holds and [c_scale] is truthy. *)
Lemma speech_transcription_cloud_run
    (filepath : string) (kwargs : pydict) (m : measures) (j : json)
    (t : string) :
  get_config = Ok m →
  transcribe_audio filepath (read_kwargs kwargs) = Ok (j, t) →
  speech_transcription_cloud filepath kwargs
  = if py_eq (dict_get kwargs "ShowSpeakerLabels" (VBool true)) (VBool true)
       && truthy (dict_get kwargs "c_scale" (VStr ""))
    then (content_dict <- extract_content j ;;
          j' <- get_clinical_labels (dict_get kwargs "c_scale" (VStr ""))
                  m content_dict j ;;
          Ok (j', t))%res
    else Ok (j, t).
Proof.
  intros Hcfg Htr. unfold speech_transcription_cloud, subscript.
  rewrite Hcfg. simpl. rewrite Htr. simpl.
  rewrite read_kwargs_show, read_kwargs_scale. simpl.
  destruct (py_eq _ (VBool true)); simpl; [|done].
  by destruct (truthy _).
Qed.
End TranscriptionFacts.




(** The two outcomes on the stand-in service. *)
Example speech_transcription_cloud_labelled :
  speech_transcription_cloud (H := echo_transcriber) "s3://rec.wav"
    {[ "c_scale" := VStr "panss" ]}
  = Ok ("panss:s3://rec.wav"%string, "hello"%string).
Proof. vm_compute. reflexivity. Qed.

Example speech_transcription_cloud_plain :
  speech_transcription_cloud (H := echo_transcriber) "s3://rec.wav"
    {[ "ShowSpeakerLabels" := VBool false; "c_scale" := VStr "panss" ]}
  = Ok ("s3://rec.wav"%string, "hello"%string)
  ∧ speech_transcription_cloud (H := echo_transcriber) "s3://rec.wav" ∅
    = Ok ("s3://rec.wav"%string, "hello"%string).
Proof. split; vm_compute; reflexivity. Qed.

(* ===================================================================== *)
(** * Properties beyond the claims                                        *)
(* ===================================================================== *)

(* ===================================================================== *)
(** ** read_kwargs and speech_transcription_cloud                         *)
(* ===================================================================== *)

Lemma read_kwargs_lookup (kwargs : pydict) (key : string) :
  read_kwargs kwargs !! key
  = (fun d => dict_get kwargs key d) <$> kwarg_default key.
Proof.
  unfold read_kwargs.
  repeat match goal with
  | |- <[?k := _]> _ !! key = _ =>
      destruct (decide (key = k)) as [->|];
      [ by rewrite lookup_insert_eq | rewrite lookup_insert_ne by done ]
  end.
  rewrite lookup_empty. unfold kwarg_default.
  repeat match goal with
  | |- context [String.eqb key ?k] =>
      destruct (String.eqb_spec key k); [done|]
  end.
  done.
Qed.

(** X1.  [read_kwargs] normalises any keyword arguments to the same nine
    parameters: a key it knows keeps the caller's value, of whatever type,
    or gets its default when the caller did not pass it; a key it does not
    know is dropped; and reading the result again changes nothing. *)
Theorem read_kwargs_normalises (kwargs : pydict) :
  dom (read_kwargs kwargs)
  = list_to_set [ "model"; "language"; "region"; "job_name";
                  "ShowSpeakerLabels"; "MaxSpeakerLabels"; "c_scale";
                  "access_key"; "secret_key" ]
  ∧ (∀ key v default,
       kwarg_default key = Some default → kwargs !! key = Some v →
       read_kwargs kwargs !! key = Some v)
  ∧ (∀ key default,
       kwarg_default key = Some default → kwargs !! key = None →
       read_kwargs kwargs !! key = Some default)
  ∧ (∀ key, kwarg_default key = None → read_kwargs kwargs !! key = None)
  ∧ read_kwargs (read_kwargs kwargs) = read_kwargs kwargs.
Proof.
  split; [| split; [| split; [| split]]].
  - unfold read_kwargs. rewrite !dom_insert_L, dom_empty_L. set_solver.
  - intros key v d Hd Hv. rewrite read_kwargs_lookup, Hd. simpl.
    unfold dict_get. by rewrite Hv.
  - intros key d Hd Hv. rewrite read_kwargs_lookup, Hd. simpl.
    unfold dict_get. by rewrite Hv.
  - intros key Hd. by rewrite read_kwargs_lookup, Hd.
  - apply map_eq. intros key. rewrite !read_kwargs_lookup.
    destruct (kwarg_default key) as [d|] eqn:Hd; [|done]. simpl.
    unfold dict_get at 1. by rewrite read_kwargs_lookup, Hd.
Qed.

(** X2.  Whatever the keyword arguments, a call of
    [speech_transcription_cloud] that returns [(j', t')] has loaded the
    configuration and transcribed the file with the normalised parameters,
    and [t'] is the transcript of that transcription: the transcript is
    never altered.  The response [j'] is the transcription's own, or the
    clinical labelling of it, which happens only when [ShowSpeakerLabels]
    equals [True] and [c_scale] is truthy. *)
Theorem speech_transcription_cloud_returns `{TranscribeUtil}
    (filepath : string) (kwargs : pydict) (j' : json) (t' : string) :
  speech_transcription_cloud filepath kwargs = Ok (j', t') →
  ∃ (m : measures) (j : json),
    get_config = Ok m
    ∧ transcribe_audio filepath (read_kwargs kwargs) = Ok (j, t')
    ∧ (j' = j
       ∨ (py_eq (dict_get kwargs "ShowSpeakerLabels" (VBool true)) (VBool true)
          = true
          ∧ truthy (dict_get kwargs "c_scale" (VStr "")) = true
          ∧ ∃ c : content,
              extract_content j = Ok c
              ∧ get_clinical_labels (dict_get kwargs "c_scale" (VStr ""))
                  m c j = Ok j')).
Proof.
  intros Hrun.
  destruct get_config as [m|e] eqn:Hcfg.
  2:{ unfold speech_transcription_cloud in Hrun. rewrite Hcfg in Hrun.
      discriminate Hrun. }
  destruct (transcribe_audio filepath (read_kwargs kwargs)) as [[j t]|e] eqn:Htr.
  2:{ unfold speech_transcription_cloud in Hrun. rewrite Hcfg in Hrun.
      simpl in Hrun. rewrite Htr in Hrun. discriminate Hrun. }
  rewrite (speech_transcription_cloud_run filepath kwargs m j t Hcfg Htr) in Hrun.
  exists m, j.
  destruct (py_eq _ (VBool true)) eqn:Hshow; simpl in Hrun.
  - destruct (truthy _) eqn:Hscale.
    + destruct (extract_content j) as [c|] eqn:Hc; simpl in Hrun; [|done].
      destruct (get_clinical_labels _ m c j) as [j2|] eqn:Hlab;
        simpl in Hrun; [|done].
      injection Hrun as <- <-. split; [done|]. split; [done|]. right.
      split; [done|]. split; [done|]. by exists c.
    + injection Hrun as <- <-. split; [done|]. split; [done|]. by left.
  - injection Hrun as <- <-. split; [done|]. split; [done|]. by left.
Qed.

(** A labelled call on the stand-in service. *)
Lemma speech_transcription_cloud_returns_witness :
  ∃ (m : unit) (j : string),
    get_config (TranscribeUtil := echo_transcriber) = Ok m
    ∧ transcribe_audio (TranscribeUtil := echo_transcriber) "s3://rec.wav"
        (read_kwargs {[ "c_scale" := VStr "panss" ]})
      = Ok (j, "hello"%string)
    ∧ ("panss:s3://rec.wav"%string = j
       ∨ (py_eq (dict_get {[ "c_scale" := VStr "panss" ]}
                   "ShowSpeakerLabels" (VBool true)) (VBool true) = true
          ∧ truthy (dict_get {[ "c_scale" := VStr "panss" ]}
                      "c_scale" (VStr "")) = true
          ∧ ∃ c : string,
              extract_content (TranscribeUtil := echo_transcriber) j = Ok c
              ∧ get_clinical_labels (TranscribeUtil := echo_transcriber)
                  (dict_get {[ "c_scale" := VStr "panss" ]} "c_scale" (VStr ""))
                  m c j
                = Ok "panss:s3://rec.wav"%string)).
Proof.
  apply (speech_transcription_cloud_returns (H := echo_transcriber)
           "s3://rec.wav" {[ "c_scale" := VStr "panss" ]}
           "panss:s3://rec.wav"%string "hello"%string).
  vm_compute. reflexivity.
Defined.

(** X3.  Without a clinical scale (no [c_scale], an empty one, or any other
    falsy value) the response is returned as the transcription gave it,
    whatever [ShowSpeakerLabels] and the other keyword arguments are;
    [extract_content] and [get_clinical_labels] play no part. *)
Theorem speech_transcription_cloud_without_scale `{TranscribeUtil}
    (filepath : string) (kwargs : pydict) (m : measures) (j : json)
    (t : string) :
  get_config = Ok m →
  transcribe_audio filepath (read_kwargs kwargs) = Ok (j, t) →
  truthy (dict_get kwargs "c_scale" (VStr "")) = false →
  speech_transcription_cloud filepath kwargs = Ok (j, t).
Proof.
  intros Hcfg Htr Hscale.
  rewrite (speech_transcription_cloud_run filepath kwargs m j t Hcfg Htr).
  rewrite Hscale. by rewrite andb_false_r.
Qed.

(** A call that asks for speaker labels but names no scale. *)
Lemma speech_transcription_cloud_without_scale_witness :
  speech_transcription_cloud (H := echo_transcriber) "s3://rec.wav"
    {[ "ShowSpeakerLabels" := VBool true; "MaxSpeakerLabels" := VInt 4 ]}
  = Ok ("s3://rec.wav"%string, "hello"%string).
Proof.
  apply (speech_transcription_cloud_without_scale (H := echo_transcriber)
           "s3://rec.wav"
           {[ "ShowSpeakerLabels" := VBool true; "MaxSpeakerLabels" := VInt 4 ]}
           tt "s3://rec.wav"%string "hello"%string).
  - reflexivity.
  - reflexivity.
  - vm_compute. reflexivity.
Defined.

(* ===================================================================== *)
(** ** traj_smooth_ends, further                                          *)
(* ===================================================================== *)

(** X4.  On an existing trajectory, [traj_smooth_ends] returns exactly when
    the mask has one entry per row and selects at least one row, whatever
    the window; with a mask of another length, or one that selects no row,
    it raises IndexError. *)
Theorem traj_smooth_ends_returns_iff
    (h : heap) (traj : loc) (a : ndarray) (mask : list bool)
    (start_time end_time : Q) :
  h !! traj = Some a →
  ((∃ (current_traj : loc) (h' : heap),
      traj_smooth_ends traj start_time end_time mask h = (Ok current_traj, h'))
   ↔ length mask = length a ∧ mask_select a mask ≠ [])
  ∧ (length mask ≠ length a ∨ mask_select a mask = [] →
     (traj_smooth_ends traj start_time end_time mask h).1 = Raise IndexError).
Proof.
  intros Hl.
  destruct (decide (length mask = length a)) as [Hlen|Hlen].
  2:{ rewrite (traj_smooth_ends_bad_mask _ _ a) by done.
      split; [|done]. split; [by intros (? & ? & ?) | by intros [? _]]. }
  destruct (rows_shape (mask_select a mask))
    as [Hsel | [[s Hsel] | (f & mid & z & Hsel)]].
  - rewrite (traj_smooth_ends_empty _ _ a) by done.
    split; [|done]. split; [by intros (? & ? & ?) | by intros [_ ?]].
  - rewrite (traj_smooth_ends_single _ _ a _ s) by done. rewrite Hsel.
    split; [| by intros [?|?]]. split; [done | by eexists _, _].
  - rewrite (traj_smooth_ends_multi _ _ a _ f mid z) by done. rewrite Hsel.
    split; [| by intros [?|?]]. split; [done | by eexists _, _].
Qed.

(** The outcome on the demo trajectory. *)
Lemma traj_smooth_ends_returns_iff_witness :
  ((∃ (current_traj : loc) (h' : heap),
      traj_smooth_ends 7%nat 3600%Q 7200%Q [true; true; true; false] demo_heap
      = (Ok current_traj, h'))
   ↔ length [true; true; true; false] = length demo_traj
     ∧ mask_select demo_traj [true; true; true; false] ≠ [])
  ∧ (length [true; true; true; false] ≠ length demo_traj
     ∨ mask_select demo_traj [true; true; true; false] = [] →
     (traj_smooth_ends 7%nat 3600%Q 7200%Q [true; true; true; false]
        demo_heap).1 = Raise IndexError).
Proof.
  apply (traj_smooth_ends_returns_iff demo_heap 7%nat demo_traj
           [true; true; true; false] 3600%Q 7200%Q).
  vm_compute. reflexivity.
Defined.

Lemma lookup_shape {A} (f : A) (mid : list A) (z : A) (i : nat) (r : A) :
  (f :: mid ++ [z]) !! i = Some r →
  (i = 0%nat ∧ r = f)
  ∨ (∃ k, i = S k ∧ (k < length mid)%nat ∧ mid !! k = Some r)
  ∨ (i = S (length mid) ∧ r = z).
Proof.
  destruct i as [|k]; simpl; [intros [= <-]; by left|].
  intros Hk. right.
  destruct (decide (k < length mid)%nat) as [Hlt|Hge].
  - left. exists k. rewrite lookup_app_l in Hk by done. done.
  - right. rewrite lookup_app_r in Hk by lia.
    destruct (k - length mid)%nat as [|n] eqn:E; simpl in Hk; [|done].
    injection Hk as <-. split; [f_equal; lia | done].
Qed.

(** X5.  What [traj_smooth_ends] leaves alone: in the array it returns,
    every row keeps its flag and its observed indicator; every row but the
    first keeps its start point and start time; every row but the last
    keeps its end point and end time.  So the rows strictly inside the
    selection are copied unchanged. *)
Theorem traj_smooth_ends_keeps_inner_cells
    (h : heap) (traj : loc) (a : ndarray) (mask : list bool)
    (start_time end_time : Q) :
  h !! traj = Some a →
  length mask = length a →
  mask_select a mask ≠ [] →
  ∃ (current_traj : loc) (out : ndarray),
    traj_smooth_ends traj start_time end_time mask h
      = (Ok current_traj, <[current_traj := out]> h)
    ∧ ∀ (i : nat) (r : segment),
        mask_select a mask !! i = Some r →
        ∃ r' : segment,
          out !! i = Some r'
          ∧ s_flag r' = s_flag r ∧ s_obs r' = s_obs r
          ∧ ((0 < i)%nat →
             s_x0 r' = s_x0 r ∧ s_y0 r' = s_y0 r ∧ s_t0 r' = s_t0 r)
          ∧ ((S i < length (mask_select a mask))%nat →
             s_x1 r' = s_x1 r ∧ s_y1 r' = s_y1 r ∧ s_t1 r' = s_t1 r).
Proof.
  intros Hl Hlen Hne.
  destruct (rows_shape (mask_select a mask))
    as [Hsel | [[s Hsel] | (f & mid & z & Hsel)]]; [done | |].
  - eexists _, _. split; [by apply (traj_smooth_ends_single _ _ a _ s)|].
    rewrite Hsel. intros [|i] r; simpl; [|done]. intros [= <-].
    eexists. split; [done|]. simpl. repeat split; lia.
  - eexists _, _. split; [by apply (traj_smooth_ends_multi _ _ a _ f mid z)|].
    rewrite Hsel. intros i r Hr.
    assert (Hlenrows : length (f :: mid ++ [z]) = S (S (length mid)))
      by (simpl; rewrite length_app; simpl; lia).
    rewrite Hlenrows.
    apply lookup_shape in Hr as [[-> ->] | [(k & -> & Hk & Hr) | [-> ->]]].
    + eexists. split; [done|]. simpl. repeat split; lia.
    + exists r. split; [simpl; by rewrite lookup_app_l|]. done.
    + exists (smooth_last z end_time). split.
      * simpl. rewrite lookup_app_r by lia. by rewrite Nat.sub_diag.
      * simpl. repeat split; lia.
Qed.

(** The demo trajectory, three rows selected. *)
Lemma traj_smooth_ends_keeps_inner_cells_witness :
  ∃ (current_traj : loc) (out : ndarray),
    traj_smooth_ends 7%nat 3600%Q 7200%Q [true; true; true; false] demo_heap
      = (Ok current_traj, <[current_traj := out]> demo_heap)
    ∧ ∀ (i : nat) (r : segment),
        mask_select demo_traj [true; true; true; false] !! i = Some r →
        ∃ r' : segment,
          out !! i = Some r'
          ∧ s_flag r' = s_flag r ∧ s_obs r' = s_obs r
          ∧ ((0 < i)%nat →
             s_x0 r' = s_x0 r ∧ s_y0 r' = s_y0 r ∧ s_t0 r' = s_t0 r)
          ∧ ((S i < length (mask_select demo_traj [true; true; true; false]))%nat →
             s_x1 r' = s_x1 r ∧ s_y1 r' = s_y1 r ∧ s_t1 r' = s_t1 r).
Proof.
  apply (traj_smooth_ends_keeps_inner_cells demo_heap 7%nat demo_traj
           [true; true; true; false] 3600%Q 7200%Q).
  - vm_compute. reflexivity.
  - reflexivity.
  - discriminate.
Defined.

Section SmoothEndsGeometry.
Implicit Types (h : heap) (a : ndarray) (mask : list bool).





Lemma py_sumQ_from (l : list Q) (acc : Q) :
  (fold_left Qplus l acc == acc + py_sumQ l)%Q.
Proof.
  unfold py_sumQ. revert acc. induction l as [|x l IH]; intros acc; simpl.
  - lra.
  - rewrite IH, (IH (0 + x)%Q). lra.
Qed.

Lemma py_sumQ_cons (x : Q) (l : list Q) :
  (py_sumQ (x :: l) == x + py_sumQ l)%Q.
Proof. unfold py_sumQ at 1. simpl. rewrite py_sumQ_from. lra. Qed.

Lemma py_sumQ_snoc (l : list Q) (x : Q) :
  (py_sumQ (l ++ [x]) == py_sumQ l + x)%Q.
Proof. unfold py_sumQ. rewrite fold_left_app. simpl. reflexivity. Qed.

Lemma contiguous_tail (f : segment) (rows : list segment) :
  contiguous (f :: rows) → contiguous rows.
Proof. intros Hc i r r' Hr Hr'. by apply (Hc (S i) r r'). Qed.

(** The durations of gap-free rows add up to the span from the first start
    to the last end. *)
Lemma durations_telescope (mid : list segment) (f z : segment) :
  contiguous (f :: mid ++ [z]) →
  (py_sumQ (map duration (f :: mid ++ [z])) == s_t1 z - s_t0 f)%Q.
Proof.
  revert f. induction mid as [|m mid IH]; intros f Hc.
  - simpl. rewrite py_sumQ_cons, py_sumQ_cons. unfold py_sumQ, duration. simpl.
    pose proof (Hc 0%nat f z eq_refl eq_refl). lra.
  - pose proof (Hc 0%nat f m eq_refl eq_refl) as Hfm.
    pose proof (IH m (contiguous_tail _ _ Hc)) as Hrest.
    change (map duration (f :: (m :: mid) ++ [z]))
      with (duration f :: map duration (m :: mid ++ [z])).
    rewrite py_sumQ_cons, Hrest. unfold duration. lra.
Qed.

Lemma durations_ends (mid : list segment) (f z : segment) :
  (py_sumQ (map duration (f :: mid ++ [z]))
   == duration f + py_sumQ (map duration mid) + duration z)%Q.
Proof.
  change (map duration (f :: mid ++ [z]))
    with (duration f :: map duration (mid ++ [z])).
  rewrite py_sumQ_cons, map_app. simpl. rewrite py_sumQ_snoc. lra.
Qed.
End SmoothEndsGeometry.



(** X7.  When the selected rows follow one another without a gap, the
    durations of the rows [traj_smooth_ends] returns add up to the length
    of the window, [end_time - start_time]. *)
Theorem traj_smooth_ends_fills_window
    (h : heap) (traj : loc) (a : ndarray) (mask : list bool)
    (start_time end_time : Q) :
  h !! traj = Some a →
  length mask = length a →
  mask_select a mask ≠ [] →
  contiguous (mask_select a mask) →
  ∃ (current_traj : loc) (out : ndarray),
    traj_smooth_ends traj start_time end_time mask h
      = (Ok current_traj, <[current_traj := out]> h)
    ∧ (py_sumQ (map duration out) == end_time - start_time)%Q.
Proof.
  intros Hl Hlen Hne Hc.
  destruct (rows_shape (mask_select a mask))
    as [Hsel | [[s Hsel] | (f & mid & z & Hsel)]]; [done | |].
  - eexists _, _. split; [by apply (traj_smooth_ends_single _ _ a _ s)|].
    unfold py_sumQ, duration. simpl. lra.
  - eexists _, _. split; [by apply (traj_smooth_ends_multi _ _ a _ f mid z)|].
    rewrite Hsel in Hc. pose proof (durations_telescope mid f z Hc) as Htel.
    rewrite durations_ends in Htel. rewrite durations_ends.
    unfold duration in *. simpl. lra.
Qed.

(** The first three rows of the demo trajectory are gap-free. *)
Lemma traj_smooth_ends_fills_window_witness :
  ∃ (current_traj : loc) (out : ndarray),
    traj_smooth_ends 7%nat 3600%Q 7200%Q [true; true; true; false] demo_heap
      = (Ok current_traj, <[current_traj := out]> demo_heap)
    ∧ (py_sumQ (map duration out) == 7200 - 3600)%Q.
Proof.
  apply (traj_smooth_ends_fills_window demo_heap 7%nat demo_traj
           [true; true; true; false] 3600%Q 7200%Q).
  - vm_compute. reflexivity.
  - reflexivity.
  - discriminate.
  - intros [|[|[|i]]] r r'; simpl; intros [= <-] Hr'; try discriminate Hr';
      injection Hr' as <-; reflexivity.
Defined.

(* ===================================================================== *)
(** ** gps_quality, further                                               *)
(* ===================================================================== *)

Section QualityCounting.
Variable obs : Type.
Variable timestamp : obs -> Q.
#[local] Existing Instance in_hour_bucket_dec.

(** Hour buckets do not overlap: a timestamp is in at most one. *)
Lemma hour_bucket_unique (start_time : Q) (hour hour' : Z) (t : Q) :
  in_hour_bucket start_time hour t → in_hour_bucket start_time hour' t →
  hour = hour'.
Proof.
  unfold in_hour_bucket. intros [Hlo Hhi] [Hlo' Hhi'].
  assert (H1 : (inject_Z hour < inject_Z (hour' + 1))%Q)
    by (rewrite inject_Z_plus; change (inject_Z 1) with 1%Q; lra).
  assert (H2 : (inject_Z hour' < inject_Z (hour + 1))%Q)
    by (rewrite inject_Z_plus; change (inject_Z 1) with 1%Q; lra).
  rewrite <- Zlt_Qlt in H1, H2. lia.
Qed.

Lemma filter_none {A} (P : A → Prop) `{∀ x, Decision (P x)} (l : list A) :
  (∀ x, x ∈ l → ¬ P x) → filter P l = [].
Proof.
  induction l as [|x l IH]; intros Hall; [done|].
  rewrite filter_cons. destruct (decide (P x)) as [HP|_].
  - destruct (Hall x); [by left | done].
  - apply IH. intros y Hy. apply Hall. by right.
Qed.

Lemma buckets_holding (start_time t : Q) (hours : list Z) :
  NoDup hours →
  (length (filter (fun hour => in_hour_bucket start_time hour t) hours) ≤ 1)%nat.
Proof.
  induction hours as [|x hours IH]; intros Hnd; [simpl; lia|].
  apply NoDup_cons in Hnd as [Hx Hnd]. rewrite filter_cons.
  destruct (decide (in_hour_bucket start_time x t)) as [Hin|_]; [|by apply IH].
  rewrite filter_none; [simpl; lia|].
  intros y Hy Hiny. apply Hx.
  by rewrite (hour_bucket_unique start_time x y t Hin Hiny).
Qed.

Lemma sum_list_indicator {A} (P : A → Prop) `{∀ x, Decision (P x)} (l : list A) :
  sum_list (map (fun x => if decide (P x) then 1%nat else 0%nat) l)
  = length (filter P l).
Proof.
  induction l as [|x l IH]; [done|]. simpl. rewrite filter_cons, IH.
  by destruct (decide (P x)).
Qed.

Lemma sum_list_plus {A} (f g : A → nat) (l : list A) :
  sum_list (map (fun x => (f x + g x)%nat) l)
  = (sum_list (map f l) + sum_list (map g l))%nat.
Proof. induction l as [|x l IH]; [done|]. simpl. rewrite IH. lia. Qed.

(** Counted bucket by bucket, no observation is counted twice. *)
Lemma buckets_total (data : list obs) (start_time : Q) (hours : list Z) :
  NoDup hours →
  (sum_list (map (bucket_size obs timestamp data start_time) hours)
   ≤ length data)%nat.
Proof.
  intros Hnd. induction data as [|r data IH].
  - unfold bucket_size. simpl. induction hours; [done|]. simpl.
    apply NoDup_cons in Hnd as [_ Hnd]. by apply IHhours.
  - rewrite (map_ext _
      (fun hour =>
         ((if decide (in_hour_bucket start_time hour (timestamp r))
           then 1 else 0)
          + bucket_size obs timestamp data start_time hour)%nat)).
    2:{ intros hour. unfold bucket_size. rewrite filter_cons.
        by destruct (decide (in_hour_bucket start_time hour (timestamp r))). }
    rewrite sum_list_plus, sum_list_indicator.
    pose proof (buckets_holding start_time (timestamp r) hours Hnd).
    simpl. lia.
Qed.

Lemma dense_buckets_total (size : Z → nat) (hours : list Z) :
  (61 * length (filter (fun hour => (60 < size hour)%nat) hours)
   ≤ sum_list (map size hours))%nat.
Proof.
  induction hours as [|x hours IH]; [simpl; lia|].
  rewrite filter_cons. simpl.
  destruct (decide (60 < size x)%nat); simpl; lia.
Qed.

(** Every dense hour accounts for 61 rows of its own. *)
Lemma dense_hours_rows (data : list obs) (start_time : Q) (num_hours : Z) :
  (61 * dense_hours obs timestamp data start_time num_hours ≤ length data)%nat.
Proof.
  unfold dense_hours.
  pose proof (dense_buckets_total
                (bucket_size obs timestamp data start_time) (seqZ 0 num_hours)).
  pose proof (buckets_total data start_time (seqZ 0 num_hours)
                (NoDup_seqZ 0 num_hours)).
  lia.
Qed.
End QualityCounting.

(** X8.  A dataframe that passes [gps_quality] is large: with [dense] the
    number of hours holding more than 60 observations, [num_hours] is at
    most [2 * dense] and the dataframe has at least [61 * dense] rows; in
    particular, when the last timestamp is not before the first, it has at
    least 61 rows. *)
Theorem gps_quality_pass_needs_rows
    (obs : Type) (timestamp : obs → Q) (data : list obs)
    (first_row last_row : obs) :
  head data = Some first_row →
  last data = Some last_row →
  (gps_quality obs timestamp data).1 = Ok tt →
  let start_time := timestamp first_row in
  let end_time := timestamp last_row in
  let num_hours := py_int ((end_time - start_time) / 3600)%Q + 1 in
  let dense := Z.of_nat (dense_hours obs timestamp data start_time num_hours) in
  num_hours ≤ 2 * dense
  ∧ 61 * dense ≤ Z.of_nat (length data)
  ∧ ((start_time <= end_time)%Q → 61 ≤ Z.of_nat (length data)).
Proof.
  intros Hhead Hlast Hok start_time end_time num_hours dense.
  unfold gps_quality in Hok. rewrite Hhead, Hlast in Hok. simpl in Hok.
  fold start_time end_time num_hours in Hok.
  rewrite quality_count in Hok. fold dense in Hok.
  destruct (Qlt_bool (inject_Z dense) (0.5 * inject_Z num_hours)) eqn:E;
    [discriminate Hok|].
  assert (Hhalf : num_hours ≤ 2 * dense).
  { rewrite Zle_Qle, inject_Z_mult. change (inject_Z 2) with 2%Q.
    destruct (Qlt_le_dec (2 * inject_Z dense) (inject_Z num_hours)) as [Hlt|];
      [|done].
    assert (Hb : (inject_Z dense < 0.5 * inject_Z num_hours)%Q) by lra.
    apply Qlt_bool_iff in Hb. congruence. }
  assert (Hrows : 61 * dense ≤ Z.of_nat (length data)).
  { pose proof (dense_hours_rows obs timestamp data start_time num_hours).
    subst dense. lia. }
  split; [done|]. split; [done|]. intros Horder.
  assert (Hq : (0 <= (end_time - start_time) / 3600)%Q)
    by (apply Qle_shift_div_l; lra).
  destruct (py_int_nonneg _ Hq) as [Hlo Hhi].
  assert (Hpos : (inject_Z 0 < inject_Z (py_int ((end_time - start_time) / 3600) + 1))%Q)
    by (change (inject_Z 0) with 0%Q; lra).
  rewrite <- Zlt_Qlt in Hpos. subst num_hours. lia.
Qed.

(** Sixty-one observations one second apart. *)
Lemma gps_quality_pass_needs_rows_witness :
  let start_time := inject_Z 0 in
  let end_time := inject_Z 60 in
  let num_hours := py_int ((end_time - start_time) / 3600)%Q + 1 in
  let dense :=
    Z.of_nat (dense_hours Z inject_Z (seqZ 0 61) start_time num_hours) in
  num_hours ≤ 2 * dense
  ∧ 61 * dense ≤ Z.of_nat (length (seqZ 0 61))
  ∧ ((start_time <= end_time)%Q → 61 ≤ Z.of_nat (length (seqZ 0 61))).
Proof.
  apply (gps_quality_pass_needs_rows Z inject_Z (seqZ 0 61) 0 60).
  - reflexivity.
  - reflexivity.
  - vm_compute. reflexivity.
Defined.

(** X9.  Timestamps that run backwards by an hour or more pass the check
    whatever the data holds: when the last timestamp is at most the first
    minus 3600, [num_hours] is zero or negative, no hour is examined and
    [gps_quality] returns normally. *)
Theorem gps_quality_backwards_passes
    (obs : Type) (timestamp : obs → Q) (data : list obs)
    (first_row last_row : obs) :
  head data = Some first_row →
  last data = Some last_row →
  (timestamp last_row <= timestamp first_row - 3600)%Q →
  gps_quality obs timestamp data = (Ok tt, data).
Proof.
  intros Hhead Hlast Hback.
  unfold gps_quality. rewrite Hhead, Hlast. simpl.
  set (q := ((timestamp last_row - timestamp first_row) / 3600)%Q).
  assert (Hq : (q <= -1)%Q).
  { subst q. apply Qle_shift_div_r; lra. }
  assert (Hneg : (q < 0)%Q) by lra.
  destruct (py_int_neg q Hneg) as [Hlo _].
  assert (Hint : py_int q + 1 ≤ 0).
  { assert (Hlt : (inject_Z (py_int q - 1) < inject_Z (-1))%Q)
      by (change (inject_Z (-1)) with (-1)%Q; lra).
    rewrite <- Zlt_Qlt in Hlt. lia. }
  rewrite quality_count.
  unfold dense_hours. rewrite (seqZ_nil 0 (py_int q + 1)) by lia.
  change (Z.of_nat (length (filter _ []))) with 0.
  destruct (Qlt_bool (inject_Z 0) (0.5 * inject_Z (py_int q + 1))) eqn:E;
    [|done].
  apply Qlt_bool_iff in E. rewrite Zle_Qle in Hint.
  change (inject_Z 0) with 0%Q in *. lra.
Qed.

(** Two observations, the second two hours before the first. *)
Lemma gps_quality_backwards_passes_witness :
  gps_quality Q id [7200; 0]%Q = (Ok tt, [7200; 0]%Q).
Proof.
  apply (gps_quality_backwards_passes Q id [7200; 0]%Q 7200%Q 0%Q).
  - reflexivity.
  - reflexivity.
  - discriminate.
Defined.

(* ===================================================================== *)
(** ** gps_stats and trajectory_statistics, further                       *)
(* ===================================================================== *)

Section GpsStatsRuns.
Context `{Forest}.
Variable great_circle_dist : Q → Q → Q → Q → Q.
Variable temp : loc.

Lemma sum_bool_all_false {A} (test : A → bool) (a : list A) :
  (∀ r, r ∈ a → test r = false) → sum_bool (map test a) = 0.
Proof.
  induction a as [|x a IH]; intros Hall; [done|].
  simpl. rewrite sum_bool_cons, (Hall x) by (by left).
  rewrite IH; [done|]. intros r Hr. apply Hall. by right.
Qed.

Lemma na_row_fits (df : DataFrame) (year month day hour : Z) :
  (4 ≤ length (columns df))%nat →
  is_ok (pd_Series
           (map (fun z => Num (inject_Z z)) [year; month; day; hour]
            ++ map (fun _ => NA) (drop 4 (columns df)))
           (columns df)) = true.
Proof.
  intros Hcols. unfold pd_Series.
  rewrite length_app, !length_map, length_drop.
  replace (length [year; month; day; hour] + (length (columns df) - 4))%nat
    with (length (columns df)) by (simpl; lia).
  by rewrite Nat.eqb_refl.
Qed.

(** A window that overlaps no segment is skipped: nothing is returned to
    the caller and the heap is as before. *)
Lemma window_stats_skips
    traj df frequency timezone home_coords start_stamp window i h a :
  h !! traj = Some a →
  (4 ≤ length (columns df))%nat →
  sum_bool
    (map (fun r =>
            Qlt_bool (s_t0 r) (inject_Z (start_stamp + (i + 1) * window))
            && Qlt_bool (inject_Z (start_stamp + i * window)) (s_t1 r)) a)
  = 0 →
  window_stats great_circle_dist temp traj df frequency timezone
    home_coords start_stamp window i h
  = (Ok tt, h).
Proof.
  intros Hl Hcols Hsum. unfold window_stats.
  unfold bind at 1, load. rewrite Hl. simpl. rewrite Hsum. simpl.
  unfold bind, lift.
  pose proof (na_row_fits df
    (dt_year (stamp2datetime (inject_Z (start_stamp + i * window)) timezone))
    (dt_month (stamp2datetime (inject_Z (start_stamp + i * window)) timezone))
    (dt_day (stamp2datetime (inject_Z (start_stamp + i * window)) timezone))
    (dt_hour (stamp2datetime (inject_Z (start_stamp + i * window)) timezone))
    Hcols) as Hfit.
  simpl in Hfit. by destruct (pd_Series _ _).
Qed.

Lemma window_loop_skips
    traj df frequency timezone home_coords start_stamp window a xs h :
  h !! traj = Some a →
  (4 ≤ length (columns df))%nat →
  (∀ i, i ∈ xs →
     sum_bool
       (map (fun r =>
               Qlt_bool (s_t0 r) (inject_Z (start_stamp + (i + 1) * window))
               && Qlt_bool (inject_Z (start_stamp + i * window)) (s_t1 r)) a)
     = 0) →
  for_each xs
    (fun i (_ : unit) =>
       window_stats great_circle_dist temp traj df frequency timezone
                    home_coords start_stamp window i) tt h
  = (Ok tt, h).
Proof.
  intros Hl Hcols. induction xs as [|x xs IH]; intros Hall; [done|].
  simpl. unfold bind.
  rewrite (window_stats_skips _ _ _ _ _ _ _ _ _ a) by (try done; apply Hall; by left).
  apply IH. intros i Hi. apply Hall. by right.
Qed.

Lemma gps_stats_idle_run traj df frequency timezone h a
    first_row last_row home_coords :
  h !! traj = Some a →
  head a = Some first_row →
  last a = Some last_row →
  locate_home (mask_select a (map observed a)) timezone = Ok home_coords →
  (4 ≤ length (columns df))%nat →
  (∀ (i : Z) (r : segment),
     0 ≤ i < (datetime2stamp
                (truncate frequency (stamp2datetime (s_t1 last_row) timezone))
                timezone
              - datetime2stamp
                  (truncate frequency (stamp2datetime (s_t0 first_row) timezone))
                  timezone) `div` window_length frequency →
     r ∈ a →
     ¬ ((s_t0 r
         < inject_Z
             (datetime2stamp
                (truncate frequency (stamp2datetime (s_t0 first_row) timezone))
                timezone + (i + 1) * window_length frequency))%Q
        ∧ (inject_Z
             (datetime2stamp
                (truncate frequency (stamp2datetime (s_t0 first_row) timezone))
                timezone + i * window_length frequency)
           < s_t1 r)%Q)) →
  gps_stats great_circle_dist temp traj df frequency timezone h
  = (Ok df, <[fresh (dom h) := mask_select a (map observed a)]> h).
Proof.
  intros Hl Hhead Hlast Hhome Hcols Hidle. unfold gps_stats.
  unfold bind at 1, load at 1. rewrite Hl. simpl.
  unfold bind at 1. rewrite (mask_rows_run h traj a) by (by rewrite ?length_map).
  unfold bind at 1, load at 1. rewrite lookup_insert_eq. simpl.
  unfold bind at 1, lift at 1. rewrite Hhome.
  assert (Hl1 : (<[fresh (dom h) := mask_select a (map observed a)]> h) !! traj
                = Some a).
  { rewrite lookup_insert_ne; [done|]. intros Heq.
    pose proof (fresh_loc_unused h) as Hf. rewrite Heq, Hl in Hf. discriminate. }
  assert (Hne : length a ≠ 0%nat) by (destruct a; [done | simpl; lia]).
  unfold bind at 1.
  rewrite (getitem_read _ traj a 0 3 0%nat first_row (s_t0 first_row));
    [| done | by apply norm_index_front | by rewrite <- head_lookup | done].
  unfold bind at 1.
  rewrite (getitem_read _ traj a (-1) 6 (length a - 1)%nat last_row
             (s_t1 last_row));
    [| done | by apply norm_index_back
     | by rewrite Nat.sub_1_r, <- last_lookup | done].
  unfold bind at 1.
  rewrite (window_loop_skips _ _ _ _ _ _ _ a); [done | done | done |].
  intros i Hi. apply elem_of_seqZ in Hi.
  apply sum_bool_all_false. intros r Hr.
  apply andb_false_iff.
  destruct (Qlt_bool (s_t0 r) _) eqn:E1; [|by left]. right.
  destruct (Qlt_bool _ (s_t1 r)) eqn:E2; [|done].
  apply Qlt_bool_iff in E1, E2. destruct (Hidle i r); [lia | done | done].
Qed.
End GpsStatsRuns.

(** X11.  [gps_stats] returns when there is nothing to compute: on a
    non-empty trajectory whose home is located, with a dataframe of at
    least four columns, if no window of the layout overlaps a segment
    (in particular when the trajectory spans less than one full window),
    the call returns the dataframe it was given, and the only change to the
    heap is the new array of observed rows. *)
Theorem gps_stats_idle_returns `{Forest}
    (great_circle_dist : Q → Q → Q → Q → Q) (temp traj : loc)
    (df : DataFrame) (frequency timezone : string) (h : heap) (a : ndarray)
    (first_row last_row : segment) (home_coords : Q * Q) :
  h !! traj = Some a →
  head a = Some first_row →
  last a = Some last_row →
  locate_home (mask_select a (map observed a)) timezone = Ok home_coords →
  (4 ≤ length (columns df))%nat →
  (∀ (i : Z) (r : segment),
     0 ≤ i < (truncated_stamp frequency timezone (s_t1 last_row)
              - truncated_stamp frequency timezone (s_t0 first_row))
             `div` window_length frequency →
     r ∈ a →
     ¬ overlaps r
         (truncated_stamp frequency timezone (s_t0 first_row)
          + i * window_length frequency)
         (truncated_stamp frequency timezone (s_t0 first_row)
          + (i + 1) * window_length frequency)) →
  gps_stats great_circle_dist temp traj df frequency timezone h
  = (Ok df, <[fresh (dom h) := mask_select a (map observed a)]> h).
Proof.
  intros Hl Hhead Hlast Hhome Hcols Hidle.
  by apply (gps_stats_idle_run great_circle_dist temp traj df frequency
              timezone h a first_row last_row home_coords).
Qed.

(** Two instantaneous fixes two hours apart: two hourly windows, neither
    overlapping a segment. *)
Lemma gps_stats_idle_returns_witness :
  gps_stats (H := utc_january_1970) (fun _ _ _ _ => 0%Q) 0%nat 3%nat
    hourly_frame "hourly" "UTC" {[ 3%nat := gap_traj ]}
  = (Ok hourly_frame,
     <[fresh (dom ({[ 3%nat := gap_traj ]} : heap))
         := mask_select gap_traj (map observed gap_traj)]>
       {[ 3%nat := gap_traj ]}).
Proof.
  apply (gps_stats_idle_returns (H := utc_january_1970)
           (fun _ _ _ _ => 0%Q) 0%nat 3%nat hourly_frame "hourly" "UTC"
           {[ 3%nat := gap_traj ]} gap_traj
           (Seg 2 0 0 0 0 0 0 1)%Q (Seg 2 5 5 7200 5 5 7200 1)%Q (0, 0)%Q).
  - vm_compute. reflexivity.
  - reflexivity.
  - reflexivity.
  - reflexivity.
  - simpl. lia.
  - assert (E0 : truncated_stamp (H := utc_january_1970) "hourly" "UTC"
                   (s_t0 (Seg 2 0 0 0 0 0 0 1)%Q) = 0) by reflexivity.
    assert (E1 : truncated_stamp (H := utc_january_1970) "hourly" "UTC"
                   (s_t1 (Seg 2 5 5 7200 5 5 7200 1)%Q) = 7200) by reflexivity.
    assert (Ew : window_length "hourly" = 3600) by reflexivity.
    rewrite E0, E1, Ew. change ((7200 - 0) `div` 3600) with 2.
    intros i r Hi Hr [Hlo Hhi]. unfold gap_traj in Hr.
    apply elem_of_cons in Hr as [->|Hr].
    + change (s_t1 (Seg 2 0 0 0 0 0 0 1)%Q) with (inject_Z 0) in Hhi.
      rewrite <- Zlt_Qlt in Hhi. lia.
    + apply list_elem_of_singleton in Hr as ->.
      change (s_t0 (Seg 2 5 5 7200 5 5 7200 1)%Q) with (inject_Z 7200) in Hlo.
      rewrite <- Zlt_Qlt in Hlo. lia.
Defined.

Section Preservation.
Context `{Forest}.

Lemma preserves_ret {A} (a : A) : preserves (ret a).
Proof. by intros h l _. Qed.

Lemma preserves_throw {A} (e : exn) : preserves (@throw A e).
Proof. by intros h l _. Qed.

Lemma preserves_lift {A} (r : result A) : preserves (lift r).
Proof. by intros h l _. Qed.

Lemma preserves_load (l : loc) : preserves (load l).
Proof. by intros h l' _. Qed.

Lemma preserves_bind {A B} (m : M A) (k : A → M B) :
  preserves m → (∀ a, preserves (k a)) → preserves (bind m k).
Proof.
  intros Hm Hk h l Hsome. pose proof (Hm h l Hsome) as Hh. unfold bind.
  destruct (m h) as [[a|e] h1]; simpl in *; [|done].
  rewrite <- Hh. apply Hk. by rewrite Hh.
Qed.

Lemma preserves_getitem (l : loc) (i : Z) (j : nat) : preserves (getitem l i j).
Proof.
  unfold getitem. apply preserves_bind; [apply preserves_load|].
  intros a. apply preserves_lift.
Qed.

Lemma preserves_alloc (a : ndarray) : preserves (alloc a).
Proof.
  intros h l Hsome. unfold alloc. simpl. apply lookup_insert_ne.
  intros <-. rewrite fresh_loc_unused in Hsome. by destruct Hsome.
Qed.

Lemma preserves_mask_rows (l : loc) (mask : list bool) :
  preserves (mask_rows l mask).
Proof.
  unfold mask_rows. apply preserves_bind; [apply preserves_load|].
  intros a. destruct (bool_decide _);
    [apply preserves_alloc | apply preserves_throw].
Qed.

Lemma preserves_load_global {A} (name : string) (d : A) :
  preserves (load_global name d).
Proof.
  unfold load_global. destruct (existsb _ _);
    [apply preserves_ret | apply preserves_throw].
Qed.

Lemma preserves_for_each {A S} (xs : list A) (body : A → S → M S) (s : S) :
  (∀ x s', preserves (body x s')) → preserves (for_each xs body s).
Proof.
  intros Hbody. revert s. induction xs as [|x xs IH]; intros s; simpl.
  - apply preserves_ret.
  - apply preserves_bind; [apply Hbody | apply IH].
Qed.

Lemma preserves_traj_smooth_ends traj start_time end_time mask :
  preserves (traj_smooth_ends traj start_time end_time mask).
Proof. intros h l Hsome. by apply traj_smooth_ends_frame. Qed.

Local Ltac frame :=
  repeat first
    [ apply preserves_ret | apply preserves_throw | apply preserves_lift
    | apply preserves_load | apply preserves_getitem
    | apply preserves_mask_rows | apply preserves_load_global
    | apply preserves_traj_smooth_ends
    | apply preserves_bind; [| intros ?]
    | apply preserves_for_each; intros ? ?
    | match goal with
      | |- preserves (if ?c then _ else _) => destruct c
      | |- preserves (match ?x with _ => _ end) => destruct x
      end ].

Lemma preserves_day_night_split current_traj timezone :
  preserves (day_night_split current_traj timezone).
Proof. unfold day_night_split. frame. Qed.

Lemma preserves_window_stats
    great_circle_dist temp traj df frequency timezone home_coords
    start_stamp window i :
  preserves (window_stats great_circle_dist temp traj df frequency timezone
               home_coords start_stamp window i).
Proof.
  unfold window_stats. cbv zeta.
  apply preserves_bind; [apply preserves_load | intros a].
  destruct (sum_bool _ =? 0); [frame|].
  apply preserves_bind; [apply preserves_traj_smooth_ends | intros cur].
  apply preserves_bind; [apply preserves_load | intros rows].
  apply preserves_bind.
  { destruct (String.eqb frequency "daily"); [|apply preserves_ret].
    apply preserves_bind; [apply preserves_day_night_split | intros [d n]].
    frame. }
  intros day_night. frame.
Qed.

Lemma preserves_gps_stats
    great_circle_dist temp traj df frequency timezone :
  preserves (gps_stats great_circle_dist temp traj df frequency timezone).
Proof.
  unfold gps_stats. cbv zeta.
  do 6 (apply preserves_bind; [frame | intros ?]).
  apply preserves_bind; [| intros ?; apply preserves_ret].
  apply preserves_for_each. intros x s. apply preserves_window_stats.
Qed.

Lemma preserves_trajectory_statistics `{NumPy}
    great_circle_dist temp traj df_list timezone :
  preserves (trajectory_statistics great_circle_dist temp traj df_list timezone).
Proof.
  unfold trajectory_statistics. destruct df_list as [[hourly daily] summary].
  apply preserves_bind; [apply preserves_gps_stats | intros ?].
  apply preserves_bind; [apply preserves_gps_stats | intros ?].
  frame.
Qed.
End Preservation.

(** X12.  [gps_stats] never modifies the trajectory it is given: after any
    call, returning or raising, for any frequency and timezone, the array
    [traj] points to, and every other array that existed before the call,
    is what it was; the call only creates new arrays. *)
Theorem gps_stats_preserves_arrays `{Forest}
    (great_circle_dist : Q → Q → Q → Q → Q) (temp traj : loc)
    (df : DataFrame) (frequency timezone : string) (h : heap) :
  let h' := (gps_stats great_circle_dist temp traj df frequency timezone h).2 in
  h' !! traj = h !! traj
  ∧ ∀ l : loc, is_Some (h !! l) → h' !! l = h !! l.
Proof.
  intros h'.
  assert (Hall : ∀ l : loc, is_Some (h !! l) → h' !! l = h !! l)
    by (intros l; apply preserves_gps_stats).
  split; [|done].
  destruct (h !! traj) as [a|] eqn:Hl.
  - rewrite <- Hl. apply Hall. by rewrite Hl.
  - subst h'. unfold gps_stats, bind at 1, load at 1. by rewrite Hl.
Qed.

(** X13.  What [trajectory_statistics] hands back when it returns: the
    hourly and the daily dataframe are the ones it was given, unchanged, and
    the summary is [summary_stats] of the daily dataframe it was given (not
    of statistics of the trajectory); the trajectory array is untouched. *)
Theorem trajectory_statistics_returns `{Forest} `{NumPy}
    (great_circle_dist : Q → Q → Q → Q → Q) (temp traj : loc)
    (hourly daily summary hourly' daily' summary' : DataFrame)
    (timezone : string) (h h' : heap) :
  trajectory_statistics great_circle_dist temp traj (hourly, daily, summary)
    timezone h
  = (Ok (hourly', daily', summary'), h') →
  hourly' = hourly
  ∧ daily' = daily
  ∧ summary_stats daily summary = Ok summary'
  ∧ h' !! traj = h !! traj.
Proof.
  intros Hrun.
  assert (Hframe : h' !! traj = h !! traj).
  { destruct (h !! traj) as [a|] eqn:Hl.
    - rewrite <- Hl.
      pose proof (preserves_trajectory_statistics great_circle_dist temp traj
                    (hourly, daily, summary) timezone h traj) as Hp.
      rewrite Hrun in Hp. apply Hp. by rewrite Hl.
    - unfold trajectory_statistics, bind at 1, gps_stats, bind at 1, load at 1
        in Hrun. rewrite Hl in Hrun. discriminate Hrun. }
  unfold trajectory_statistics in Hrun.
  apply bind_ok_inv in Hrun as (hourly1 & h1 & Hhourly & Hrun).
  apply gps_stats_returns_its_input in Hhourly as ->.
  apply bind_ok_inv in Hrun as (daily1 & h2 & Hdaily & Hrun).
  apply gps_stats_returns_its_input in Hdaily as ->.
  apply bind_ok_inv in Hrun as (summary1 & h3 & Hsummary & Hrun).
  unfold lift in Hsummary. injection Hsummary as Hsummary <-.
  unfold ret in Hrun. injection Hrun as <- <- <- <-.
  done.
Qed.

(** The pipeline on the two instantaneous fixes and three empty frames. *)
Lemma trajectory_statistics_returns_witness :
  hourly_frame = hourly_frame
  ∧ daily_frame = daily_frame
  ∧ summary_stats (H := numpy_exact) daily_frame demo_summary
    = Ok (DF summary_columns
             [ (0, [Num 0; Num 0; NA; NA; NA; NA; NA; NA]) ])
  ∧ (trajectory_statistics (H := utc_january_1970) (H0 := numpy_exact)
       (fun _ _ _ _ => 0%Q) 0%nat 3%nat
       (hourly_frame, daily_frame, demo_summary) "UTC"
       {[ 3%nat := gap_traj ]}).2 !! 3%nat
    = ({[ 3%nat := gap_traj ]} : heap) !! 3%nat.
Proof.
  apply (trajectory_statistics_returns (H := utc_january_1970)
           (H0 := numpy_exact) (fun _ _ _ _ => 0%Q) 0%nat 3%nat
           hourly_frame daily_frame demo_summary
           hourly_frame daily_frame
           (DF summary_columns [ (0, [Num 0; Num 0; NA; NA; NA; NA; NA; NA]) ])
           "UTC" {[ 3%nat := gap_traj ]}).
  vm_compute. reflexivity.
Defined.

(* ===================================================================== *)
(** ** summary_stats, further                                             *)
(* ===================================================================== *)

Section LocSetAgain.
Implicit Types (rs : list (Z * list value)) (cells : list value).

Lemma overwrite_idem label cells r :
  overwrite label cells (overwrite label cells r) = overwrite label cells r.
Proof.
  unfold overwrite at 2 3. destruct (r.1 =? label) eqn:E.
  - unfold overwrite. simpl. by rewrite E.
  - unfold overwrite. by rewrite E.
Qed.

Lemma overwrite_other label cells rs :
  label ∉ map fst rs → map (overwrite label cells) rs = rs.
Proof.
  induction rs as [|r rs IH]; [done|]. simpl. intros Hnot.
  apply not_elem_of_cons in Hnot as [Hne Hnot]. rewrite IH by done.
  unfold overwrite. destruct (Z.eqb_spec r.1 label); [congruence | done].
Qed.

Lemma overwrite_labels label cells rs :
  map fst (map (overwrite label cells) rs) = map fst rs.
Proof.
  induction rs as [|r rs IH]; [done|]. simpl.
  by rewrite overwrite_label, IH.
Qed.

(** Assigning the same row to the same label a second time changes
    nothing. *)
Lemma loc_set_idem (df df1 : DataFrame) label cells :
  loc_set df label cells = Ok df1 → loc_set df1 label cells = Ok df1.
Proof.
  unfold loc_set, labels.
  destruct (negb (length cells =? length (columns df))%nat) eqn:Elen;
    [discriminate|].
  destruct (existsb (Z.eqb label) (map fst (rows df))) eqn:Eex.
  - intros [= <-]. simpl. rewrite Elen, overwrite_labels, Eex.
    do 2 f_equal. rewrite <- list_fmap_compose. apply list_fmap_ext.
    intros i r _. simpl. apply overwrite_idem.
  - intros [= <-]. simpl. rewrite Elen.
    assert (Hnot : label ∉ map fst (rows df)).
    { intros Hin. apply existsb_label in Hin. congruence. }
    rewrite map_app, existsb_app. simpl. rewrite Z.eqb_refl, orb_true_r.
    do 2 f_equal. rewrite map_app, overwrite_other by done. simpl.
    unfold overwrite. simpl. by rewrite Z.eqb_refl.
Qed.

Lemma loc_set_ok_inv (df df1 : DataFrame) label cells :
  loc_set df label cells = Ok df1 →
  length cells = length (columns df)
  ∧ columns df1 = columns df
  ∧ loc_get df1 label = Some cells
  ∧ length (rows df1)
    = (if bool_decide (label ∈ labels df)
       then length (rows df) else S (length (rows df))).
Proof.
  unfold loc_set, labels, loc_get.
  destruct (length cells =? length (columns df))%nat eqn:Elen;
    [|discriminate].
  apply Nat.eqb_eq in Elen. simpl.
  destruct (existsb (Z.eqb label) (map fst (rows df))) eqn:Eex.
  - apply existsb_label in Eex. intros [= <-]. simpl.
    rewrite find_overwritten by done. rewrite bool_decide_true by done.
    by rewrite length_map.
  - assert (Hnot : label ∉ map fst (rows df)).
    { intros Hin. apply existsb_label in Hin. congruence. }
    intros [= <-]. simpl. rewrite find_appended by done.
    rewrite bool_decide_false by done. rewrite length_app. simpl.
    repeat split; try done. lia.
Qed.
End LocSetAgain.

(** X14.  [summary_stats] returns only for a daily dataframe that has the
    four columns it reads and a summary dataframe of exactly eight columns.
    The dataframe it returns has the same columns, the row labelled 0 holds
    the statistics, and it has one row more than before exactly when no
    row was labelled 0 before (otherwise the same number of rows). *)
Theorem summary_stats_returns_only_if `{NumPy}
    (daily summary summary' : DataFrame) :
  summary_stats daily summary = Ok summary' →
  ∃ observed_time dist_travelled home_time home_max_dist : list value,
    column daily "observed_time" = Ok observed_time
    ∧ column daily "dist_travelled" = Ok dist_travelled
    ∧ column daily "home_time" = Ok home_time
    ∧ column daily "home_max_dist" = Ok home_max_dist
    ∧ length (columns summary) = 8%nat
    ∧ columns summary' = columns summary
    ∧ loc_get summary' 0
      = Some [ Num (inject_Z (Z.of_nat (length (rows daily))));
               py_sum observed_time;
               np_mean dist_travelled; np_std dist_travelled;
               np_mean home_time; np_std home_time;
               np_mean home_max_dist; np_std home_max_dist ]
    ∧ length (rows summary')
      = (if bool_decide (0 ∈ labels summary)
         then length (rows summary) else S (length (rows summary))).
Proof.
  unfold summary_stats. intros Hrun.
  destruct (column daily "observed_time") as [o|]; simpl in Hrun; [|done].
  destruct (column daily "dist_travelled") as [d|]; simpl in Hrun; [|done].
  destruct (column daily "home_time") as [t|]; simpl in Hrun; [|done].
  destruct (column daily "home_max_dist") as [x|]; simpl in Hrun; [|done].
  apply loc_set_ok_inv in Hrun as (Hlen & Hcols & Hget & Hrows).
  exists o, d, t, x. by repeat split.
Qed.

(** The two demo days summarised into the empty summary frame. *)
Lemma summary_stats_returns_only_if_witness :
  ∃ observed_time dist_travelled home_time home_max_dist : list value,
    column demo_daily "observed_time" = Ok observed_time
    ∧ column demo_daily "dist_travelled" = Ok dist_travelled
    ∧ column demo_daily "home_time" = Ok home_time
    ∧ column demo_daily "home_max_dist" = Ok home_max_dist
    ∧ length (columns demo_summary) = 8%nat
    ∧ columns (DF summary_columns
                 [ (0, map Num [2; 150000; 200; 100; 55000; 5000; 1000; 500]%Q) ])
      = columns demo_summary
    ∧ loc_get (DF summary_columns
                 [ (0, map Num [2; 150000; 200; 100; 55000; 5000; 1000; 500]%Q) ])
        0
      = Some [ Num (inject_Z (Z.of_nat (length (rows demo_daily))));
               py_sum observed_time;
               np_mean (NumPy := numpy_exact) dist_travelled;
               np_std (NumPy := numpy_exact) dist_travelled;
               np_mean (NumPy := numpy_exact) home_time;
               np_std (NumPy := numpy_exact) home_time;
               np_mean (NumPy := numpy_exact) home_max_dist;
               np_std (NumPy := numpy_exact) home_max_dist ]
    ∧ length (rows (DF summary_columns
                 [ (0, map Num [2; 150000; 200; 100; 55000; 5000; 1000; 500]%Q) ]))
      = (if bool_decide (0 ∈ labels demo_summary)
         then length (rows demo_summary) else S (length (rows demo_summary))).
Proof.
  apply (summary_stats_returns_only_if (H := numpy_exact) demo_daily
           demo_summary
           (DF summary_columns
              [ (0, map Num [2; 150000; 200; 100; 55000; 5000; 1000; 500]%Q) ])).
  vm_compute. reflexivity.
Defined.

(** X15.  Summarising the same daily dataframe again changes nothing: when
    [summary_stats daily summary] returns a dataframe, [summary_stats] of
    the same [daily] and that dataframe returns it as it is (row 0 is
    overwritten with the same cells, no row is added). *)
Theorem summary_stats_idempotent `{NumPy}
    (daily summary summary' : DataFrame) :
  summary_stats daily summary = Ok summary' →
  summary_stats daily summary' = Ok summary'.
Proof.
  unfold summary_stats. intros Hrun.
  destruct (column daily "observed_time") as [o|]; simpl in *; [|done].
  destruct (column daily "dist_travelled") as [d|]; simpl in *; [|done].
  destruct (column daily "home_time") as [t|]; simpl in *; [|done].
  destruct (column daily "home_max_dist") as [x|]; simpl in *; [|done].
  by apply (loc_set_idem summary).
Qed.

(** The summary of the two demo days, summarised again. *)
Lemma summary_stats_idempotent_witness :
  summary_stats (H := numpy_exact) demo_daily
    (DF summary_columns
       [ (0, map Num [2; 150000; 200; 100; 55000; 5000; 1000; 500]%Q) ])
  = Ok (DF summary_columns
          [ (0, map Num [2; 150000; 200; 100; 55000; 5000; 1000; 500]%Q) ]).
Proof.
  apply (summary_stats_idempotent (H := numpy_exact) demo_daily demo_summary).
  vm_compute. reflexivity.
Defined.

(* ===================================================================== *)
(** ** diarization_hf_utils, further                                      *)
(* ===================================================================== *)

(** X16.  Edge cases of [call_diarization_hf] that do not reach the model:
    without the key [parallel_processing] in [input_param] the call raises
    KeyError, whatever the prompts; with no prompts at all, the sequential
    loop returns the empty dictionary, while the parallel branch (the key
    equal to 1, which [True] is too) raises ValueError, as a pool of zero
    processes is refused. *)
Theorem call_diarization_hf_edge_cases `{Diarizer}
    (prompts : gmap Z string) (endpoint_name : string) (input_param : pydict) :
  (input_param !! "parallel_processing" = None →
   call_diarization_hf prompts endpoint_name input_param = Raise KeyError)
  ∧ (∀ v : pyval,
       input_param !! "parallel_processing" = Some v →
       call_diarization_hf ∅ endpoint_name input_param
       = if py_eq v (VInt 1) then Raise ValueError else Ok ∅).
Proof.
  split.
  - intros Hkey. unfold call_diarization_hf, subscript. by rewrite Hkey.
  - intros v Hkey. unfold call_diarization_hf, subscript. rewrite Hkey. simpl.
    destruct (py_eq v (VInt 1)); [done|].
    unfold sorted_keys. by rewrite map_to_list_empty.
Qed.

(** X17.  The argument list [call_diarization_hf] builds for the pool has
    one tuple per chunk, in ascending order of chunk index and without
    repetition; building it never raises KeyError; and the tuple for index
    [idx] is [(idx, prompts[idx], input_param, endpoint_name)]. *)
Theorem chunk_arguments_in_index_order
    (prompts : gmap Z string) (endpoint_name : string) (input_param : pydict) :
  Sorted Z.le (sorted_keys prompts)
  ∧ NoDup (sorted_keys prompts)
  ∧ (∀ idx, idx ∈ sorted_keys prompts ↔ is_Some (prompts !! idx))
  ∧ ∃ tuples : list (list arg),
      map_res (chunk_tuple prompts endpoint_name input_param)
              (sorted_keys prompts) = Ok tuples
      ∧ length tuples = size prompts
      ∧ ∀ (i : nat) (idx : Z),
          sorted_keys prompts !! i = Some idx →
          ∃ prompt : string,
            prompts !! idx = Some prompt
            ∧ tuples !! i
              = Some [AVal (VInt idx); AVal (VStr prompt); ADict input_param;
                      AVal (VStr endpoint_name)].
Proof.
  assert (Hperm : sorted_keys prompts ≡ₚ map fst (map_to_list prompts))
    by apply merge_sort_Permutation.
  assert (Hin : ∀ idx, idx ∈ sorted_keys prompts ↔ is_Some (prompts !! idx)).
  { intros idx. rewrite Hperm, list_elem_of_fmap. split.
    - intros ([k v] & -> & Hkv). apply elem_of_map_to_list in Hkv. by exists v.
    - intros [v Hv]. exists (idx, v). split; [done|].
      by apply elem_of_map_to_list. }
  split; [apply Sorted_merge_sort; apply _|].
  split; [rewrite Hperm; apply NoDup_fst_map_to_list|].
  split; [done|].
  assert (Hgen : ∀ keys : list Z,
            (∀ idx, idx ∈ keys → is_Some (prompts !! idx)) →
            ∃ tuples,
              map_res (chunk_tuple prompts endpoint_name input_param) keys
              = Ok tuples
              ∧ length tuples = length keys
              ∧ ∀ (i : nat) (idx : Z), keys !! i = Some idx →
                  ∃ prompt, prompts !! idx = Some prompt
                    ∧ tuples !! i
                      = Some [AVal (VInt idx); AVal (VStr prompt);
                              ADict input_param; AVal (VStr endpoint_name)]).
  { induction keys as [|k keys IH]; intros Hkeys.
    - exists []. by repeat split.
    - destruct (Hkeys k) as [p Hp]; [by left|].
      destruct IH as (tuples & Hmap & Hlen & Hnth).
      { intros idx Hidx. apply Hkeys. by right. }
      simpl. unfold chunk_tuple at 1. rewrite Hp. simpl. rewrite Hmap. simpl.
      eexists. split; [done|]. split; [simpl; by rewrite Hlen|].
      intros [|i] idx; simpl.
      + intros [= <-]. by exists p.
      + apply Hnth. }
  destruct (Hgen (sorted_keys prompts)) as (tuples & Hmap & Hlen & Hnth).
  { intros idx. apply Hin. }
  exists tuples. split; [done|]. split; [|done].
  rewrite Hlen, Hperm, length_map. apply length_map_to_list.
Qed.

(** X18.  [process_chunk_hf] before decoration returns only for a tuple of
    exactly three elements whose third is a dictionary holding the key
    [quantized], and the index it returns is the first element of the
    tuple, as it was passed. *)
Theorem process_chunk_hf_body_returns `{Diarizer}
    (args : list arg) (idx : arg) (output : string) :
  process_chunk_hf_body args = Ok (idx, output) →
  ∃ (prompt : arg) (input_param : pydict) (quantized : pyval),
    args = [idx; prompt; ADict input_param]
    ∧ input_param !! "quantized" = Some quantized.
Proof.
  unfold process_chunk_hf_body, unpack3.
  destruct args as [|a [|b [|c [|d rest]]]]; simpl; try discriminate.
  destruct c as [v|d]; simpl; [discriminate|].
  unfold subscript. destruct (d !! "quantized") as [q|] eqn:Hq; simpl;
    [|discriminate].
  destruct b as [[| | |s]|]; simpl; try discriminate.
  destruct (generate (truthy q) _); simpl; [|discriminate].
  intros [= <- <-]. by exists (AVal (VStr s)), d, q.
Qed.

(** A documented three-element tuple on the echoing stand-in. *)
Lemma process_chunk_hf_body_returns_witness :
  ∃ (prompt : arg) (input_param : pydict) (quantized : pyval),
    [AVal (VInt 0); AVal (VStr "hello"); ADict {[ "quantized" := VBool false ]}]
    = [AVal (VInt 0); prompt; ADict input_param]
    ∧ input_param !! "quantized" = Some quantized.
Proof.
  apply (process_chunk_hf_body_returns (H := echo_diarizer)
           [AVal (VInt 0); AVal (VStr "hello");
            ADict {[ "quantized" := VBool false ]}]
           (AVal (VInt 0)) "hello"%string).
  vm_compute. reflexivity.
Defined.

(** X19.  [gps_stats] never returns on a trajectory without rows: the
    exception of [locate_home] if it raises on the empty array, and
    otherwise IndexError from reading the first start stamp. *)
Theorem gps_stats_empty_trajectory `{Forest}
    (great_circle_dist : Q → Q → Q → Q → Q) (temp traj : loc)
    (df : DataFrame) (frequency timezone : string) (h : heap) :
  h !! traj = Some [] →
  (gps_stats great_circle_dist temp traj df frequency timezone h).1
  = match locate_home [] timezone with
    | Ok _ => Raise IndexError
    | Raise e => Raise e
    end.
Proof.
  intros Hl. unfold gps_stats.
  unfold bind at 1, load at 1. rewrite Hl. simpl.
  unfold bind at 1. rewrite (mask_rows_run h traj []) by done. simpl.
  unfold bind at 1, load at 1. rewrite lookup_insert_eq. simpl.
  unfold bind at 1, lift at 1.
  destruct (locate_home [] timezone) as [home|e]; [|done].
  unfold bind at 1, getitem, bind, load, lift.
  rewrite lookup_insert_ne.
  - by rewrite Hl.
  - intros Heq. pose proof (fresh_loc_unused h) as Hf.
    rewrite Heq, Hl in Hf. discriminate.
Qed.

(** An empty trajectory on the UTC stand-in, whose [locate_home] refuses
    an empty array. *)
Lemma gps_stats_empty_trajectory_witness :
  (gps_stats (H := utc_january_1970) (fun _ _ _ _ => 0%Q) 0%nat 3%nat
     hourly_frame "hourly" "UTC" {[ 3%nat := [] ]}).1
  = match locate_home (Forest := utc_january_1970) [] "UTC" with
    | Ok _ => Raise IndexError
    | Raise e => Raise e
    end.
Proof.
  apply (gps_stats_empty_trajectory (H := utc_january_1970)
           (fun _ _ _ _ => 0%Q) 0%nat 3%nat hourly_frame "hourly" "UTC"
           {[ 3%nat := [] ]}).
  vm_compute. reflexivity.
Defined.
